(** * Kilobot controller: lock-step protocol with the behavior process

    A shallow embedding of [CCI_KilobotController]
    (src/plugins/robots/kilobot/control_interface/ci_kilobot_controller.cpp):
    the state record in shared memory, the controller's members, the system
    calls it issues, and the four lifecycle callbacks [Init], [ControlStep],
    [Reset] and [Destroy], written in a small state-and-exception monad over
    an explicit world.  The operating system and the behavior process are
    deterministic oracles handed to each callback. *)

From Stdlib Require Import ZArith QArith String List Lia.
From stdpp Require Import base list strings pretty.

Open Scope Z_scope.

(** ** Machine integers and library helpers *)

(** Conversion to [UInt8], as done when an integer is bound to a
    [const UInt8&] parameter. *)
Definition to_UInt8 (z : Z) : Z := z mod 256.

(** ARGoS' [Min]: [t_v1 < t_v2 ? t_v1 : t_v2]. *)
Definition Min (t_v1 t_v2 : Z) : Z := if t_v1 <? t_v2 then t_v1 else t_v2.

(** [Min<UInt8>(a, b)]: both arguments are converted to [UInt8] first. *)
Definition Min_UInt8 (a b : Z) : Z := Min (to_UInt8 a) (to_UInt8 b).

(** Wait options and status macros of <sys/wait.h>. *)
Definition WNOHANG : Z := 1.
Definition WUNTRACED : Z := 2.
Definition WIFEXITED (status : Z) : Z :=
  if Z.land status 127 =? 0 then 1 else 0.

Definition has_flag (options flag : Z) : bool :=
  negb (Z.land options flag =? 0).

Definition dquote : string := String (Ascii.ascii_of_nat 34) EmptyString.

(** [ToString<T>] on integers: decimal rendering. *)
Definition ToString (z : Z) : string := pretty z.

(** ARGoS exceptions: a message and, optionally, the exception it wraps. *)
Inductive CARGoSException : Type :=
| ARGoSException (msg : string)
| ARGoSNested (msg : string) (nested : CARGoSException).

Inductive signal : Type := SIGCONT | SIGTERM.

(** What the simulator-side pointer [m_ptRobotState] holds. *)
Inductive pointer : Type := NULL | MAP_FAILED | Mapped | Unmapped.

(** The behavior process as the parent's kernel sees it. *)
Inductive child_phase : Type := NoChild | Running | Stopped | Reaped.

(** How one run of the behavior process ends. *)
Inductive child_end : Type := Suspends | Exits | Spins.

(** The result of a system call: its return value and the [errno] it leaves
    when it fails. *)
Record sysret : Type := { ret : Z; err : Z }.

Section Controller.

(** Declarations of the controller's header and of kilolib, which the
    translation unit only includes: the payload types with their all-zero
    values, the inbox capacity and the colour channel macros. *)
Context {message_t distance_measurement_t : Type}.
Variable message_zero : message_t.
Variable distance_zero : distance_measurement_t.
Variable KILOBOT_MAX_RX : nat.
Variables RED GREEN BLUE : Z -> Z.

(** ** The state record *)

Record kilobot_state_t : Type := {
  ambientlight : Z;
  rx_state : Z;
  rx_message : list message_t;
  rx_distance : list distance_measurement_t;
  tx_state : Z;
  tx_message : message_t;
  left_motor : Z;
  right_motor : Z;
  color : Z;
  voltage : Z;
  temperature : Z
}.

(** The record after [memset(p, 0, sizeof(kilobot_state_t))]. *)
Definition zero_state : kilobot_state_t :=
  {| ambientlight := 0; rx_state := 0;
     rx_message := replicate KILOBOT_MAX_RX message_zero;
     rx_distance := replicate KILOBOT_MAX_RX distance_zero;
     tx_state := 0; tx_message := message_zero;
     left_motor := 0; right_motor := 0; color := 0;
     voltage := 0; temperature := 0 |}.

Definition set_ambientlight (v : Z) (r : kilobot_state_t) :=
  {| ambientlight := v; rx_state := rx_state r;
     rx_message := rx_message r; rx_distance := rx_distance r;
     tx_state := tx_state r; tx_message := tx_message r;
     left_motor := left_motor r; right_motor := right_motor r;
     color := color r; voltage := voltage r;
     temperature := temperature r |}.

Definition set_rx_state (v : Z) (r : kilobot_state_t) :=
  {| ambientlight := ambientlight r; rx_state := v;
     rx_message := rx_message r; rx_distance := rx_distance r;
     tx_state := tx_state r; tx_message := tx_message r;
     left_motor := left_motor r; right_motor := right_motor r;
     color := color r; voltage := voltage r;
     temperature := temperature r |}.

Definition set_rx_message (i : nat) (m : message_t) (r : kilobot_state_t) :=
  {| ambientlight := ambientlight r; rx_state := rx_state r;
     rx_message := <[i:=m]> (rx_message r); rx_distance := rx_distance r;
     tx_state := tx_state r; tx_message := tx_message r;
     left_motor := left_motor r; right_motor := right_motor r;
     color := color r; voltage := voltage r;
     temperature := temperature r |}.

Definition set_rx_distance (i : nat) (d : distance_measurement_t)
    (r : kilobot_state_t) :=
  {| ambientlight := ambientlight r; rx_state := rx_state r;
     rx_message := rx_message r; rx_distance := <[i:=d]> (rx_distance r);
     tx_state := tx_state r; tx_message := tx_message r;
     left_motor := left_motor r; right_motor := right_motor r;
     color := color r; voltage := voltage r;
     temperature := temperature r |}.

Definition set_tx_state (v : Z) (r : kilobot_state_t) :=
  {| ambientlight := ambientlight r; rx_state := rx_state r;
     rx_message := rx_message r; rx_distance := rx_distance r;
     tx_state := v; tx_message := tx_message r;
     left_motor := left_motor r; right_motor := right_motor r;
     color := color r; voltage := voltage r;
     temperature := temperature r |}.

(** One received packet of the communication sensor. *)
Record SPacket : Type := {
  Message : message_t;
  Distance : distance_measurement_t
}.

(** ** Events *)

Inductive field : Type :=
| F_ambientlight
| F_rx_state
| F_rx_message (i : nat)
| F_rx_distance (i : nat)
| F_tx_state.

Inductive event : Type :=
| EvOpen (path : string)
| EvClose (fd : Z)
| EvShmOpen (name : string)
| EvFtruncate (fd : Z)
| EvMmap (fd : Z)
| EvMemset
| EvFork
| EvExecl (path : string) (args : list string)
| EvKill (pid : Z) (sig : signal)
| EvWaitpid (pid : Z) (options : Z)
| EvMunmap
| EvShmUnlink (name : string)
| EvStore (f : field)
| EvSetLinearVelocity (v1 v2 : Q)
| EvSetSingleColor (led : Z) (r g b : Z)
| EvSetMessage (m : message_t).

Definition is_store (e : event) : bool :=
  match e with EvStore _ => true | _ => false end.

Definition is_actuation (e : event) : bool :=
  match e with
  | EvSetLinearVelocity _ _ | EvSetSingleColor _ _ _ _ | EvSetMessage _ => true
  | _ => false
  end.

Definition is_resume (e : event) : bool :=
  match e with EvKill _ SIGCONT => true | _ => false end.

Definition is_wait (e : event) : bool :=
  match e with EvWaitpid _ _ => true | _ => false end.

Definition is_fork (e : event) : bool :=
  match e with EvFork => true | _ => false end.

(** ** The world: the controller's members and what the OS holds *)

Record World : Type := {
  (* members of CCI_KilobotController; a device pointer is [true] when
     it is not NULL *)
  m_ptRobotState : pointer;
  m_pcMotors : bool;
  m_pcLED : bool;
  m_pcLight : bool;
  m_pcCommA : bool;
  m_pcCommS : bool;
  m_pcRNG : bool;
  m_nSharedMemFD : Z;
  m_nDebugInfoFD : Z;
  m_tBehaviorPID : Z;
  (* the process and the robot *)
  w_pid : Z;
  w_id : string;
  w_errno : Z;
  (* contents of the shared memory object, the child, the call log *)
  w_record : kilobot_state_t;
  w_child : child_phase;
  w_trace : list event
}.

(** The constructor's member initialisers, in a process [pid] for the
    robot [id]; [r] is whatever the memory will hold before [Init]. *)
Definition CCI_KilobotController_new (pid : Z) (id : string)
    (r : kilobot_state_t) : World :=
  {| m_ptRobotState := NULL;
     m_pcMotors := false; m_pcLED := false; m_pcLight := false;
     m_pcCommA := false; m_pcCommS := false; m_pcRNG := false;
     m_nSharedMemFD := -1; m_nDebugInfoFD := -1; m_tBehaviorPID := -1;
     w_pid := pid; w_id := id; w_errno := 0;
     w_record := r; w_child := NoChild; w_trace := [] |}.

Definition with_devices (mo le li ca cs : bool) (w : World) : World :=
  {| m_ptRobotState := m_ptRobotState w;
     m_pcMotors := mo; m_pcLED := le; m_pcLight := li;
     m_pcCommA := ca; m_pcCommS := cs; m_pcRNG := m_pcRNG w;
     m_nSharedMemFD := m_nSharedMemFD w;
     m_nDebugInfoFD := m_nDebugInfoFD w;
     m_tBehaviorPID := m_tBehaviorPID w;
     w_pid := w_pid w; w_id := w_id w; w_errno := w_errno w;
     w_record := w_record w; w_child := w_child w;
     w_trace := w_trace w |}.

Definition with_members (p : pointer) (rng : bool) (fd pid : Z)
    (w : World) : World :=
  {| m_ptRobotState := p;
     m_pcMotors := m_pcMotors w; m_pcLED := m_pcLED w;
     m_pcLight := m_pcLight w; m_pcCommA := m_pcCommA w;
     m_pcCommS := m_pcCommS w; m_pcRNG := rng;
     m_nSharedMemFD := fd;
     m_nDebugInfoFD := m_nDebugInfoFD w;
     m_tBehaviorPID := pid;
     w_pid := w_pid w; w_id := w_id w; w_errno := w_errno w;
     w_record := w_record w; w_child := w_child w;
     w_trace := w_trace w |}.

Definition with_os (e : Z) (r : kilobot_state_t) (c : child_phase)
    (t : list event) (w : World) : World :=
  {| m_ptRobotState := m_ptRobotState w;
     m_pcMotors := m_pcMotors w; m_pcLED := m_pcLED w;
     m_pcLight := m_pcLight w; m_pcCommA := m_pcCommA w;
     m_pcCommS := m_pcCommS w; m_pcRNG := m_pcRNG w;
     m_nSharedMemFD := m_nSharedMemFD w;
     m_nDebugInfoFD := m_nDebugInfoFD w;
     m_tBehaviorPID := m_tBehaviorPID w;
     w_pid := w_pid w; w_id := w_id w; w_errno := e;
     w_record := r; w_child := c; w_trace := t |}.

Definition set_pointer (p : pointer) (w : World) : World :=
  with_members p (m_pcRNG w) (m_nSharedMemFD w) (m_tBehaviorPID w) w.
Definition set_rng (w : World) : World :=
  with_members (m_ptRobotState w) true (m_nSharedMemFD w) (m_tBehaviorPID w) w.
Definition set_fd (fd : Z) (w : World) : World :=
  with_members (m_ptRobotState w) (m_pcRNG w) fd (m_tBehaviorPID w) w.
Definition set_behavior_pid (pid : Z) (w : World) : World :=
  with_members (m_ptRobotState w) (m_pcRNG w) (m_nSharedMemFD w) pid w.
Definition set_errno (e : Z) (w : World) : World :=
  with_os e (w_record w) (w_child w) (w_trace w) w.
Definition set_record (r : kilobot_state_t) (w : World) : World :=
  with_os (w_errno w) r (w_child w) (w_trace w) w.
Definition set_child (c : child_phase) (w : World) : World :=
  with_os (w_errno w) (w_record w) c (w_trace w) w.
Definition emit (e : event) (w : World) : World :=
  with_os (w_errno w) (w_record w) (w_child w) (w_trace w ++ [e]) w.

(** ** The monad *)

(** A callback returns normally, throws, makes an invalid memory access,
    blocks for ever in a wait, or (in the forked child) is replaced by the
    behavior program. *)
Inductive outcome (A : Type) : Type :=
| Ret (a : A)
| Throw (e : CARGoSException)
| Fault
| Hang
| Replaced.
Arguments Ret {A} a.
Arguments Throw {A} e.
Arguments Fault {A}.
Arguments Hang {A}.
Arguments Replaced {A}.

Definition M (A : Type) : Type := World -> outcome A * World.

Definition ret_ {A} (a : A) : M A := fun w => (Ret a, w).

Definition bind {A B} (m : M A) (k : A -> M B) : M B :=
  fun w =>
    match m w with
    | (Ret a, w') => k a w'
    | (Throw e, w') => (Throw e, w')
    | (Fault, w') => (Fault, w')
    | (Hang, w') => (Hang, w')
    | (Replaced, w') => (Replaced, w')
    end.

Notation "'do' x <- m ; k" := (bind m (fun x => k))
  (at level 10, x name, m at level 100, k at level 200).
Notation "m ;; k" := (bind m (fun _ => k))
  (at level 100, k at level 200, right associativity).

Definition get {A} (f : World -> A) : M A := fun w => (Ret (f w), w).
Definition modify (f : World -> World) : M unit := fun w => (Ret tt, f w).
Definition when (b : bool) (m : M unit) : M unit := if b then m else ret_ tt.

(** [THROW_ARGOSEXCEPTION] and [THROW_ARGOSEXCEPTION_NESTED]. *)
Definition THROW_ARGOSEXCEPTION {A} (msg : string) : M A :=
  fun w => (Throw (ARGoSException msg), w).
Definition THROW_ARGOSEXCEPTION_NESTED {A} (msg : string)
    (ex : CARGoSException) : M A :=
  fun w => (Throw (ARGoSNested msg ex), w).

(** [try { m } catch(CARGoSException& ex) { h ex }]. *)
Definition try_catch {A} (m : M A) (h : CARGoSException -> M A) : M A :=
  fun w =>
    match m w with
    | (Throw e, w') => h e w'
    | r => r
    end.

(** A counted [for] loop over the indices [0 .. n-1]. *)
Fixpoint for_each (idx : list nat) (body : nat -> M unit) : M unit :=
  match idx with
  | [] => ret_ tt
  | i :: idx' => body i ;; for_each idx' body
  end.

(** ** Access to the state record through [m_ptRobotState] *)

Definition load {A} (f : kilobot_state_t -> A) : M A :=
  fun w =>
    match m_ptRobotState w with
    | Mapped => (Ret (f (w_record w)), w)
    | _ => (Fault, w)
    end.

Definition store (fld : field) (f : kilobot_state_t -> kilobot_state_t)
    : M unit :=
  fun w =>
    match m_ptRobotState w with
    | Mapped => (Ret tt, emit (EvStore fld) (set_record (f (w_record w)) w))
    | _ => (Fault, w)
    end.

(** A store into [rx_message[i]] or [rx_distance[i]]: outside the array
    it is an invalid access. *)
Definition store_indexed (fld : nat -> field) (i : nat)
    (f : kilobot_state_t -> kilobot_state_t) : M unit :=
  if (i <? KILOBOT_MAX_RX)%nat then store (fld i) f
  else fun w => (Fault, w).

(** [::memset(m_ptRobotState, 0, sizeof(kilobot_state_t))]. *)
Definition memset_zero : M unit :=
  fun w =>
    match m_ptRobotState w with
    | Mapped => (Ret tt, emit EvMemset (set_record zero_state w))
    | _ => (Fault, w)
    end.

(** ** Oracles: the framework, the OS and the behavior process *)

(** What the behavior process does when it next runs: how it rewrites the
    record and how the run ends; [child_prompt] tells whether that run is
    already over when a non-blocking wait looks at the child. *)
Record child_env : Type := {
  child_run : kilobot_state_t -> kilobot_state_t * child_end;
  child_prompt : bool
}.

(** Answers of the framework and of the OS during [Init]. *)
Record init_env : Type := {
  has_motors : bool;
  has_led : bool;
  has_commA : bool;
  has_commS : bool;
  has_light : bool;
  behavior_attr : CARGoSException + string;
  os_open : sysret;
  os_shm_open : sysret;
  os_ftruncate : sysret;
  os_mmap : sysret;
  os_fork : sysret;
  os_execl : option Z;
  strerror : Z -> string;
  clock_tick_ms : Z;
  rng_seed : Z
}.

(** Sensor values of one tick and the behavior's reaction to it. *)
Record tick_env : Type := {
  light_reading : Z;
  packets : list SPacket;
  message_sent : bool;
  behavior : child_env
}.

(** [Destroy] reads the local [nStatus] before anything wrote it. *)
Record destroy_env : Type := {
  nStatus : Z;
  last_run : child_env
}.

(** ** System calls *)

Definition ESRCH : Z := 3.
Definition ECHILD : Z := 10.

(** A call whose answer comes from the oracle; a negative return value
    leaves its [errno]. *)
Definition syscall (e : event) (r : sysret) : M Z :=
  fun w =>
    let w1 := emit e w in
    (Ret (ret r), if ret r <? 0 then set_errno (err r) w1 else w1).

(** [::kill(m_tBehaviorPID, sig)]: [SIGCONT] resumes a stopped child; a
    child that is gone cannot be signalled.  The model follows the
    behavior process only. *)
Definition sys_kill (sig : signal) : M Z :=
  fun w =>
    let w1 := emit (EvKill (m_tBehaviorPID w) sig) w in
    match w_child w with
    | Running => (Ret 0, w1)
    | Stopped =>
        (Ret 0, match sig with
                | SIGCONT => set_child Running w1
                | SIGTERM => w1
                end)
    | NoChild | Reaped => (Ret (-1), set_errno ESRCH w1)
    end.

(** [::waitpid(m_tBehaviorPID, status, options)].  A child that is gone
    makes the call fail at once.  A running child runs on the shared
    record until it stops, exits or never does either; an exit is always
    reported, a stop only under [WUNTRACED]; with [WNOHANG] the call
    returns 0 instead of blocking. *)
Definition sys_waitpid (options : Z) (c : child_env) : M Z :=
  fun w =>
    let pid := m_tBehaviorPID w in
    let w1 := emit (EvWaitpid pid options) w in
    let nohang := has_flag options WNOHANG in
    match w_child w with
    | NoChild | Reaped => (Ret (-1), set_errno ECHILD w1)
    | Stopped => if nohang then (Ret 0, w1) else (Hang, w1)
    | Running =>
        if nohang && negb (child_prompt c) then (Ret 0, w1)
        else
          let w2 := set_record (fst (child_run c (w_record w))) w1 in
          match snd (child_run c (w_record w)) with
          | Exits => (Ret pid, set_child Reaped w2)
          | Suspends =>
              if has_flag options WUNTRACED
              then (Ret pid, set_child Stopped w2)
              else if nohang then (Ret 0, set_child Stopped w2)
              else (Hang, set_child Stopped w2)
          | Spins => if nohang then (Ret 0, w2) else (Hang, w2)
          end
    end.

(** [::mmap(NULL, sizeof, PROT_READ | PROT_WRITE, MAP_SHARED, fd, 0)],
    with the assignment of its result to [m_ptRobotState]. *)
Definition sys_mmap (r : sysret) : M unit :=
  do fd <- get m_nSharedMemFD;
  do p <- syscall (EvMmap fd) r;
  modify (set_pointer (if p =? -1 then MAP_FAILED else Mapped)).

(** [munmap(m_ptRobotState, sizeof)]: the pointer dangles afterwards. *)
Definition sys_munmap : M unit :=
  fun w =>
    let w1 := emit EvMunmap w in
    match m_ptRobotState w with
    | Mapped => (Ret tt, set_pointer Unmapped w1)
    | _ => (Ret tt, w1)
    end.

(** [::fork()]: in the parent the child now exists and runs. *)
Definition sys_fork (r : sysret) : M Z :=
  do pid <- syscall EvFork r;
  when (0 <? pid) (modify (set_child Running)) ;;
  ret_ pid.

(** [::execl(path, args..., NULL)] returns only when it fails. *)
Definition sys_execl (path : string) (args : list string) (r : option Z)
    : M Z :=
  fun w =>
    let w1 := emit (EvExecl path args) w in
    match r with
    | None => (Replaced, w1)
    | Some e => (Ret (-1), set_errno e w1)
    end.

(** ["/" + ToString<pid_t>(tParentPID) + "_" + GetId()]. *)
Definition shm_name (tParentPID : Z) (id : string) : string :=
  "/" +:+ ToString tParentPID +:+ "_" +:+ id.

(** ** Init *)

(** [GetActuator] / [GetSensor] inside [try ... catch {}]: the member is
    assigned only when the device exists. *)
Definition init_devices (env : init_env) : M unit :=
  fun w =>
    (Ret tt,
     with_devices
       (if has_motors env then true else m_pcMotors w)
       (if has_led env then true else m_pcLED w)
       (if has_light env then true else m_pcLight w)
       (if has_commA env then true else m_pcCommA w)
       (if has_commS env then true else m_pcCommS w) w).

(** [GetNodeAttribute(t_tree, "behavior", strBehavior)]. *)
Definition GetNodeAttribute (env : init_env) : M string :=
  fun w =>
    match behavior_attr env with
    | inl ex => (Throw ex, w)
    | inr s => (Ret s, w)
    end.

(** The body of [Init], with the [memset] of line 73 as a parameter: what
    that access does depends on the object behind the mapping. *)
Definition Init_with (memset : M unit) (env : init_env) : M unit :=
  do id <- get w_id;
  try_catch
    ((* Initialize devices *)
     init_devices env ;;
     (* Parse XML parameters *)
     do strBehavior <- GetNodeAttribute env;
     (* Make sure script file exists *)
     do nBehaviorFD <- syscall (EvOpen strBehavior) (os_open env);
     (if nBehaviorFD <? 0 then
        do errno <- get w_errno;
        THROW_ARGOSEXCEPTION
          ("Opening behavior file " +:+ dquote +:+ strBehavior +:+ dquote
           +:+ ": " +:+ strerror env errno)
      else ret_ tt) ;;
     syscall (EvClose nBehaviorFD) {| ret := 0; err := 0 |} ;;
     (* Create a random number generator *)
     modify set_rng ;;
     (* Create shared memory area for master-slave communication *)
     do tParentPID <- get w_pid;
     do fd <- syscall (EvShmOpen (shm_name tParentPID id)) (os_shm_open env);
     modify (set_fd fd) ;;
     (if fd <? 0 then
        do errno <- get w_errno;
        THROW_ARGOSEXCEPTION
          ("Creating a shared memory area for " +:+ id +:+ ": "
           +:+ strerror env errno)
      else ret_ tt) ;;
     (* Resize shared memory area to contain the robot state *)
     syscall (EvFtruncate fd) (os_ftruncate env) ;;
     (* Get pointer to shared memory area *)
     sys_mmap (os_mmap env) ;;
     do p <- get m_ptRobotState;
     (match p with
      | MAP_FAILED =>
          do errno <- get w_errno;
          THROW_ARGOSEXCEPTION
            ("Mmapping the shared memory area of " +:+ id +:+ ": "
             +:+ strerror env errno)
      | _ => ret_ tt
      end) ;;
     memset ;;
     (* Fork this process *)
     do pid <- sys_fork (os_fork env);
     modify (set_behavior_pid pid) ;;
     (if pid <? 0 then
        do errno <- get w_errno;
        THROW_ARGOSEXCEPTION
          ("Forking the behavior process of " +:+ id +:+ ": "
           +:+ strerror env errno)
      else ret_ tt) ;;
     (* Execute the behavior *)
     if pid =? 0 then
       sys_execl strBehavior
         [strBehavior; ToString tParentPID; id;
          ToString (clock_tick_ms env); ToString (rng_seed env)]
         (os_execl env) ;;
       (* If the next line is executed, it's because execl did not succeed *)
       do errno <- get w_errno;
       THROW_ARGOSEXCEPTION
         ("Executing the behavior process of " +:+ id +:+ ": "
          +:+ strBehavior +:+ ": " +:+ strerror env errno)
     else ret_ tt)
    (fun ex =>
       THROW_ARGOSEXCEPTION_NESTED
         ("Error initializing the Kilobot controller for robot " +:+ id) ex).

(** [memset] over the mapped object.  The object holds the record when it
    already had that size as [shm_open] returned it, or when [ftruncate]
    gave it.  A new object that was not resized has no bytes: [mmap] still
    succeeds, and the first access is a bus error that kills the process. *)
Definition memset_object (sized_before : bool) (env : init_env) : M unit :=
  if sized_before || negb (ret (os_ftruncate env) <? 0) then memset_zero
  else fun w => (Fault, w).

(** [Init] on a named object that had the record's size before the call
    ([sized_before]) or was new. *)
Definition Init_on (sized_before : bool) (env : init_env) : M unit :=
  Init_with (memset_object sized_before env) env.

(** [Init] when the object holds the record once it is mapped, so that the
    [memset] of line 73 goes through. *)
Definition Init (env : init_env) : M unit := Init_with memset_zero env.

(** ** ControlStep *)

(** Lines 103-123: publish the sensor values. *)
Definition set_sensor_values (t : tick_env) : M unit :=
  (* Set light reading *)
  (do light <- get m_pcLight;
   when light (store F_ambientlight (set_ambientlight (light_reading t)))) ;;
  (* Set received message *)
  do commS <- get m_pcCommS;
  when commS
    (when (negb (bool_decide (length (packets t) = 0%nat)))
       (store F_rx_state
          (set_rx_state
             (Min_UInt8 (Z.of_nat (length (packets t)))
                        (Z.of_nat KILOBOT_MAX_RX))) ;;
        do n <- load rx_state;
        for_each (seq 0 (Z.to_nat n))
          (fun i =>
             match packets t !! i with
             | Some p =>
                 store_indexed F_rx_message i (set_rx_message i (Message p)) ;;
                 store_indexed F_rx_distance i
                   (set_rx_distance i (Distance p))
             | None => fun w => (Fault, w)
             end)) ;;
     (* Was last message sent? *)
     when (message_sent t) (store F_tx_state (set_tx_state 2))).

(** Lines 126-129: resume the process and wait for it to be done.  The
    results of both calls are discarded and the status pointer is NULL. *)
Definition resume_and_wait (t : tick_env) : M unit :=
  sys_kill SIGCONT ;;
  sys_waitpid WUNTRACED (behavior t) ;;
  ret_ tt.

(** Lines 130-144: hand the actuator values to the devices.  The motor
    speeds are the rationals that the double expressions approximate. *)
Definition set_actuator_values : M unit :=
  (do motors <- get m_pcMotors;
   when motors
     (do r <- load right_motor;
      do l <- load left_motor;
      modify (emit (EvSetLinearVelocity (3 * inject_Z r / 255)%Q
                                        (3 * inject_Z l / 255)%Q)))) ;;
  (do led <- get m_pcLED;
   when led
     (do c <- load color;
      modify (emit (EvSetSingleColor 0
                      (to_UInt8 (255 * RED c ÷ 3))
                      (to_UInt8 (255 * GREEN c ÷ 3))
                      (to_UInt8 (255 * BLUE c ÷ 3)))))) ;;
  (* Set message to send *)
  do commA <- get m_pcCommA;
  when commA
    (do ts <- load tx_state;
     when (ts =? 1)
       (do m <- load tx_message; modify (emit (EvSetMessage m)))).

Definition ControlStep (t : tick_env) : M unit :=
  set_sensor_values t ;;
  resume_and_wait t ;;
  set_actuator_values.

(** ** Reset and Destroy *)

Definition Reset : M unit := memset_zero.

Definition Destroy (d : destroy_env) : M unit :=
  sys_kill SIGTERM ;;
  sys_kill SIGCONT ;;
  sys_waitpid (WIFEXITED (nStatus d)) (last_run d) ;;
  sys_munmap ;;
  (do fd <- get m_nSharedMemFD;
   syscall (EvClose fd) {| ret := 0; err := 0 |}) ;;
  do tParentPID <- get w_pid;
  do id <- get w_id;
  syscall (EvShmUnlink (shm_name tParentPID id)) {| ret := 0; err := 0 |} ;;
  ret_ tt.

(** A run of consecutive ticks. *)
Fixpoint ControlSteps (ts : list tick_env) : M unit :=
  match ts with
  | [] => ret_ tt
  | t :: ts' => ControlStep t ;; ControlSteps ts'
  end.

(** ** Auxiliary definitions for the proofs *)

(** The record and the stores produced by the copy loop of [ControlStep]
    over the indices [idx]. *)
Fixpoint copy_packets (idx : list nat) (pkts : list SPacket)
    (r : kilobot_state_t) : kilobot_state_t :=
  match idx with
  | [] => r
  | i :: idx' =>
      match pkts !! i with
      | Some p =>
          copy_packets idx' pkts
            (set_rx_distance i (Distance p) (set_rx_message i (Message p) r))
      | None => r
      end
  end.

Fixpoint copy_events (idx : list nat) : list event :=
  match idx with
  | [] => []
  | i :: idx' =>
      EvStore (F_rx_message i) :: EvStore (F_rx_distance i) :: copy_events idx'
  end.

(** The count that [ControlStep] stores in [rx_state] for a non-empty
    inbox. *)
Definition rx_count (t : tick_env) : Z :=
  Min_UInt8 (Z.of_nat (length (packets t))) (Z.of_nat KILOBOT_MAX_RX).

(** The record and the stores that the sensor part of [ControlStep]
    leaves, as functions of the two sensor pointers and the old record. *)
Definition sensor_record (light commS : bool) (t : tick_env)
    (r : kilobot_state_t) : kilobot_state_t :=
  let r1 := if light then set_ambientlight (light_reading t) r else r in
  if commS then
    let r2 :=
      if bool_decide (length (packets t) = 0%nat) then r1
      else copy_packets (seq 0 (Z.to_nat (rx_count t))) (packets t)
             (set_rx_state (rx_count t) r1) in
    if message_sent t then set_tx_state 2 r2 else r2
  else r1.

Definition sensor_events (light commS : bool) (t : tick_env) : list event :=
  (if light then [EvStore F_ambientlight] else []) ++
  (if commS then
     (if bool_decide (length (packets t) = 0%nat) then []
      else EvStore F_rx_state :: copy_events (seq 0 (Z.to_nat (rx_count t))))
     ++ (if message_sent t then [EvStore F_tx_state] else [])
   else []).

(** The actuator calls of [ControlStep] for a record [r]. *)
Definition actuator_events (motors led commA : bool) (r : kilobot_state_t)
    : list event :=
  (if motors
   then [EvSetLinearVelocity (3 * inject_Z (right_motor r) / 255)%Q
                             (3 * inject_Z (left_motor r) / 255)%Q]
   else []) ++
  (if led
   then [EvSetSingleColor 0
           (to_UInt8 (255 * RED (color r) ÷ 3))
           (to_UInt8 (255 * GREEN (color r) ÷ 3))
           (to_UInt8 (255 * BLUE (color r) ÷ 3))]
   else []) ++
  (if commA && (tx_state r =? 1) then [EvSetMessage (tx_message r)] else []).

(** The child after a resume signal and a wait under [WUNTRACED], and the
    outcome of that wait, for a child that was alive. *)
Definition phase_after (e : child_end) : child_phase :=
  match e with Suspends => Stopped | Exits => Reaped | Spins => Running end.

Definition wait_outcome (e : child_end) : outcome unit :=
  match e with Spins => Hang | _ => Ret tt end.

Definition alive (c : child_phase) : bool :=
  match c with Running | Stopped => true | NoChild | Reaped => false end.

(** The record the behavior process is handed in a tick, and the record,
    the events, the child and the [errno] that the tick leaves. *)
Definition handed_record (t : tick_env) (w : World) : kilobot_state_t :=
  sensor_record (m_pcLight w) (m_pcCommS w) t (w_record w).

Definition tick_end (t : tick_env) (w : World) : child_end :=
  snd (child_run (behavior t) (handed_record t w)).

Definition tick_record (t : tick_env) (w : World) : kilobot_state_t :=
  if alive (w_child w)
  then fst (child_run (behavior t) (handed_record t w))
  else handed_record t w.

Definition tick_events (t : tick_env) (w : World) : list event :=
  sensor_events (m_pcLight w) (m_pcCommS w) t ++
  [EvKill (m_tBehaviorPID w) SIGCONT;
   EvWaitpid (m_tBehaviorPID w) WUNTRACED] ++
  actuator_events (m_pcMotors w) (m_pcLED w) (m_pcCommA w) (tick_record t w).

Definition tick_child (t : tick_env) (w : World) : child_phase :=
  if alive (w_child w) then phase_after (tick_end t w) else w_child w.

Definition tick_errno (w : World) : Z :=
  if alive (w_child w) then w_errno w else ECHILD.

(** The fields that only the behavior process writes. *)
Definition outputs (r : kilobot_state_t) : Z * Z * Z * message_t :=
  (left_motor r, right_motor r, color r, tx_message r).

(** The inbox fields. *)
Definition inbox (r : kilobot_state_t)
    : Z * list message_t * list distance_measurement_t :=
  (rx_state r, rx_message r, rx_distance r).

(** Number of events of a kind in a log. *)
Definition count (p : event -> bool) (l : list event) : nat :=
  length (List.filter p l).

(** The events of one tick: stores, then the resume signal and the wait,
    then actuator calls. *)
Definition tick_shape (pid : Z) (seg : list event) : Prop :=
  exists pre post,
    seg = pre ++ [EvKill pid SIGCONT; EvWaitpid pid WUNTRACED] ++ post /\
    Forall (fun e => is_store e = true) pre /\
    Forall (fun e => is_actuation e = true) post.

(** A behavior that ends each of its runs, by stopping or by exiting. *)
Definition cooperative (t : tick_env) : Prop :=
  forall r, snd (child_run (behavior t) r) <> Spins.

(** The same tick with the behavior's run ending in [e]. *)
Definition with_end (e : child_end) (t : tick_env) : tick_env :=
  {| light_reading := light_reading t;
     packets := packets t;
     message_sent := message_sent t;
     behavior :=
       {| child_run := fun r => (fst (child_run (behavior t) r), e);
          child_prompt := child_prompt (behavior t) |} |}.

(** Every field of the record is zero. *)
Definition all_zero (r : kilobot_state_t) : Prop :=
  ambientlight r = 0 /\ rx_state r = 0 /\
  length (rx_message r) = KILOBOT_MAX_RX /\
  Forall (fun m => m = message_zero) (rx_message r) /\
  length (rx_distance r) = KILOBOT_MAX_RX /\
  Forall (fun d => d = distance_zero) (rx_distance r) /\
  tx_state r = 0 /\ tx_message r = message_zero /\
  left_motor r = 0 /\ right_motor r = 0 /\ color r = 0 /\
  voltage r = 0 /\ temperature r = 0.

(** The log of [Destroy] when its wait is issued with [options]. *)
Definition destroy_events (options : Z) (w : World) : list event :=
  [EvKill (m_tBehaviorPID w) SIGTERM; EvKill (m_tBehaviorPID w) SIGCONT;
   EvWaitpid (m_tBehaviorPID w) options;
   EvMunmap; EvClose (m_nSharedMemFD w);
   EvShmUnlink (shm_name (w_pid w) (w_id w))].

(** ** Sample inputs *)

Definition ok (v : Z) : sysret := {| ret := v; err := 0 |}.
Definition failed (e : Z) : sysret := {| ret := -1; err := e |}.

Definition sample_env (o s f m k : sysret) : init_env :=
  {| has_motors := true; has_led := true; has_commA := true;
     has_commS := true; has_light := true;
     behavior_attr := inr "behaviors/blinky";
     os_open := o; os_shm_open := s; os_ftruncate := f; os_mmap := m;
     os_fork := k; os_execl := None;
     strerror := fun e => "errno " +:+ ToString e;
     clock_tick_ms := 100; rng_seed := 7 |}.

Definition good_env : init_env :=
  sample_env (ok 3) (ok 4) (ok 0) (ok 4096) (ok 4243).
Definition no_file_env : init_env :=
  sample_env (failed 2) (ok 4) (ok 0) (ok 4096) (ok 4243).
Definition no_resize_env : init_env :=
  sample_env (ok 3) (ok 4) (failed 22) (ok 4096) (ok 4243).

Definition fresh_world : World :=
  CCI_KilobotController_new 4242 "kb0" zero_state.

(** The parent after [Init] in [good_env]. *)
Definition running_world : World := snd (Init good_env fresh_world).

Definition a_packet : SPacket :=
  {| Message := message_zero; Distance := distance_zero |}.

(** A behavior that marks a message ready and stops, one that exits, and
    one that leaves the record alone and stops. *)
Definition sender : child_env :=
  {| child_run := fun r => (set_tx_state 1 r, Suspends);
     child_prompt := false |}.
Definition quitter : child_env :=
  {| child_run := fun r => (set_tx_state 1 r, Exits);
     child_prompt := false |}.
Definition idler : child_env :=
  {| child_run := fun r => (r, Suspends); child_prompt := false |}.

Definition sample_tick (n : nat) (sent : bool) (c : child_env) : tick_env :=
  {| light_reading := 5; packets := replicate n a_packet;
     message_sent := sent; behavior := c |}.

(** ** Further sample inputs and event kinds *)

(** The same environment with no device at all. *)
Definition without_devices (env : init_env) : init_env :=
  {| has_motors := false; has_led := false; has_commA := false;
     has_commS := false; has_light := false;
     behavior_attr := behavior_attr env;
     os_open := os_open env; os_shm_open := os_shm_open env;
     os_ftruncate := os_ftruncate env; os_mmap := os_mmap env;
     os_fork := os_fork env; os_execl := os_execl env;
     strerror := strerror env;
     clock_tick_ms := clock_tick_ms env; rng_seed := rng_seed env |}.

(** The same environment with another answer of the configuration tree,
    of [fork] and of [execl]. *)
Definition with_spawn (a : CARGoSException + string) (k : sysret)
    (x : option Z) (env : init_env) : init_env :=
  {| has_motors := has_motors env; has_led := has_led env;
     has_commA := has_commA env; has_commS := has_commS env;
     has_light := has_light env;
     behavior_attr := a;
     os_open := os_open env; os_shm_open := os_shm_open env;
     os_ftruncate := os_ftruncate env; os_mmap := os_mmap env;
     os_fork := k; os_execl := x;
     strerror := strerror env;
     clock_tick_ms := clock_tick_ms env; rng_seed := rng_seed env |}.

Definition no_attr_env : init_env :=
  with_spawn (inl (ARGoSException "no attribute")) (ok 4243) None good_env.
Definition no_shm_env : init_env :=
  sample_env (ok 3) (failed 13) (ok 0) (ok 4096) (ok 4243).
Definition no_map_env : init_env :=
  sample_env (ok 3) (ok 4) (ok 0) (failed 12) (ok 4243).
Definition no_fork_env : init_env :=
  sample_env (ok 3) (ok 4) (ok 0) (ok 4096) (failed 11).
Definition child_env_ok : init_env :=
  with_spawn (inr "behaviors/blinky") (ok 0) None good_env.
Definition child_env_noexec : init_env :=
  with_spawn (inr "behaviors/blinky") (ok 0) (Some 8) good_env.

(** A behavior that never ends its run. *)
Definition spinner : child_env :=
  {| child_run := fun r => (r, Spins); child_prompt := false |}.

Definition is_exec (e : event) : bool :=
  match e with EvExecl _ _ => true | _ => false end.

Definition is_channel_call (e : event) : bool :=
  match e with
  | EvShmOpen _ | EvFtruncate _ | EvMmap _ | EvMemset | EvMunmap
  | EvShmUnlink _ => true
  | _ => false
  end.

(** The prefix that the outer handler of [Init] puts on every exception. *)
Definition init_error_prefix (id : string) : string :=
  "Error initializing the Kilobot controller for robot " +:+ id.

(** The log of a straight run of [Init] in the parent. *)
Definition init_events (env : init_env) (path : string) (w : World)
    : list event :=
  [EvOpen path; EvClose (ret (os_open env));
   EvShmOpen (shm_name (w_pid w) (w_id w));
   EvFtruncate (ret (os_shm_open env));
   EvMmap (ret (os_shm_open env)); EvMemset; EvFork].

(** The arguments that [Init] hands to [execl] after the program path. *)
Definition behavior_args (env : init_env) (path : string) (w : World)
    : list string :=
  [path; ToString (w_pid w); w_id w;
   ToString (clock_tick_ms env); ToString (rng_seed env)].

(** Whether a string holds the separator of the shared memory name. *)
Fixpoint has_separator (s : string) : bool :=
  match s with
  | EmptyString => false
  | String c s' =>
      if Ascii.eqb c (Ascii.ascii_of_nat 95) then true else has_separator s'
  end.

(** ** Basic facts *)

Lemma to_UInt8_range z : 0 <= to_UInt8 z < 256.
Proof. unfold to_UInt8. apply Z.mod_pos_bound. lia. Qed.

Lemma Min_UInt8_range a b : 0 <= Min_UInt8 a b < 256.
Proof.
  unfold Min_UInt8, Min.
  pose proof (to_UInt8_range a). pose proof (to_UInt8_range b).
  destruct (to_UInt8 a <? to_UInt8 b); lia.
Qed.

Lemma Min_UInt8_le_l a b : 0 <= a -> Min_UInt8 a b <= a.
Proof.
  intros Ha. unfold Min_UInt8, Min.
  assert (to_UInt8 a <= a) by (unfold to_UInt8; apply Z.mod_le; lia).
  destruct (Z.ltb_spec (to_UInt8 a) (to_UInt8 b)); lia.
Qed.

Lemma Min_UInt8_le_r a b : 0 <= b -> Min_UInt8 a b <= b.
Proof.
  intros Hb. unfold Min_UInt8, Min.
  assert (to_UInt8 b <= b) by (unfold to_UInt8; apply Z.mod_le; lia).
  destruct (Z.ltb_spec (to_UInt8 a) (to_UInt8 b)); lia.
Qed.

Lemma Min_UInt8_small a b :
  0 <= a < 256 -> 0 <= b < 256 -> Min_UInt8 a b = Z.min a b.
Proof.
  intros Ha Hb. unfold Min_UInt8, Min, to_UInt8.
  rewrite !Z.mod_small by lia.
  destruct (Z.ltb_spec a b); lia.
Qed.

Lemma Min_UInt8_256 b : Min_UInt8 256 b = 0.
Proof.
  unfold Min_UInt8, Min. pose proof (to_UInt8_range b).
  change (to_UInt8 256) with 0.
  destruct (Z.ltb_spec 0 (to_UInt8 b)); lia.
Qed.

Lemma count_app p l1 l2 : count p (l1 ++ l2) = (count p l1 + count p l2)%nat.
Proof. unfold count. rewrite List.filter_app, length_app. reflexivity. Qed.

Lemma count_none p q l :
  (forall e, q e = true -> p e = false) ->
  Forall (fun e => q e = true) l -> count p l = 0%nat.
Proof.
  intros Hpq Hl. unfold count.
  induction Hl as [|e l He _ IH]; simpl; [reflexivity|].
  rewrite (Hpq e He). exact IH.
Qed.

Lemma store_not_resume e : is_store e = true -> is_resume e = false.
Proof. destruct e; simpl; congruence. Qed.
Lemma store_not_wait e : is_store e = true -> is_wait e = false.
Proof. destruct e; simpl; congruence. Qed.
Lemma actuation_not_resume e : is_actuation e = true -> is_resume e = false.
Proof. destruct e; simpl; congruence. Qed.
Lemma actuation_not_wait e : is_actuation e = true -> is_wait e = false.
Proof. destruct e; simpl; congruence. Qed.

Lemma tick_shape_counts pid seg :
  tick_shape pid seg ->
  count is_resume seg = 1%nat /\ count is_wait seg = 1%nat.
Proof.
  intros (pre & post & -> & Hpre & Hpost).
  rewrite !count_app.
  rewrite (count_none is_resume is_store pre store_not_resume Hpre).
  rewrite (count_none is_wait is_store pre store_not_wait Hpre).
  rewrite (count_none is_resume is_actuation post actuation_not_resume Hpost).
  rewrite (count_none is_wait is_actuation post actuation_not_wait Hpost).
  split; reflexivity.
Qed.

Lemma concat_shape_counts pid segs :
  Forall (tick_shape pid) segs ->
  count is_resume (concat segs) = length segs /\
  count is_wait (concat segs) = length segs.
Proof.
  induction 1 as [|seg segs Hseg _ [IHr IHw]]; simpl; [split; reflexivity|].
  destruct (tick_shape_counts pid seg Hseg) as [Hr Hw].
  rewrite !count_app, Hr, Hw, IHr, IHw. split; reflexivity.
Qed.

(** ** The copy loop *)

Lemma copy_packets_frame idx pkts r :
  ambientlight (copy_packets idx pkts r) = ambientlight r /\
  rx_state (copy_packets idx pkts r) = rx_state r /\
  tx_state (copy_packets idx pkts r) = tx_state r /\
  tx_message (copy_packets idx pkts r) = tx_message r /\
  left_motor (copy_packets idx pkts r) = left_motor r /\
  right_motor (copy_packets idx pkts r) = right_motor r /\
  color (copy_packets idx pkts r) = color r /\
  voltage (copy_packets idx pkts r) = voltage r /\
  temperature (copy_packets idx pkts r) = temperature r.
Proof.
  revert r. induction idx as [|i idx IH]; intros r; simpl.
  - repeat split.
  - destruct (pkts !! i) as [p|]; [|repeat split].
    destruct (IH (set_rx_distance i (Distance p)
                    (set_rx_message i (Message p) r)))
      as (H1 & H2 & H3 & H4 & H5 & H6 & H7 & H8 & H9).
    rewrite H1, H2, H3, H4, H5, H6, H7, H8, H9. repeat split.
Qed.

Ltac copy_frame :=
  match goal with
  | |- context [copy_packets ?i ?p ?r] =>
      let H1 := fresh in let H2 := fresh in let H3 := fresh in
      let H4 := fresh in let H5 := fresh in let H6 := fresh in
      let H7 := fresh in let H8 := fresh in let H9 := fresh in
      destruct (copy_packets_frame i p r)
        as (H1 & H2 & H3 & H4 & H5 & H6 & H7 & H8 & H9);
      rewrite ?H1, ?H2, ?H3, ?H4, ?H5, ?H6, ?H7, ?H8, ?H9
  end.

Lemma copy_events_store idx :
  Forall (fun e => is_store e = true) (copy_events idx).
Proof. induction idx; simpl; repeat constructor; assumption. Qed.

Lemma copy_packets_app idx1 idx2 pkts r :
  Forall (fun i => (i < length pkts)%nat) idx1 ->
  copy_packets (idx1 ++ idx2) pkts r =
  copy_packets idx2 pkts (copy_packets idx1 pkts r).
Proof.
  intros H. revert r. induction H as [|i idx1 Hi _ IH]; intros r; simpl.
  - reflexivity.
  - destruct (lookup_lt_is_Some_2 pkts i Hi) as [p Hp]. rewrite Hp.
    apply IH.
Qed.

Lemma for_each_copy pkts idx :
  Forall (fun i => (i < length pkts)%nat /\ (i < KILOBOT_MAX_RX)%nat) idx ->
  forall w,
    m_ptRobotState w = Mapped ->
    for_each idx
      (fun i =>
         match pkts !! i with
         | Some p =>
             store_indexed F_rx_message i (set_rx_message i (Message p)) ;;
             store_indexed F_rx_distance i (set_rx_distance i (Distance p))
         | None => fun w => (Fault, w)
         end) w
    = (Ret tt,
       with_os (w_errno w) (copy_packets idx pkts (w_record w)) (w_child w)
         (w_trace w ++ copy_events idx) w).
Proof.
  induction 1 as [|i idx [Hi Hmax] _ IH]; intros w Hw.
  - simpl. unfold ret_. rewrite app_nil_r. destruct w; reflexivity.
  - destruct (lookup_lt_is_Some_2 pkts i Hi) as [p Hp].
    cbn [for_each copy_packets copy_events]. rewrite Hp.
    unfold bind at 1. unfold bind at 1.
    unfold store_indexed.
    apply Nat.ltb_lt in Hmax. rewrite Hmax.
    unfold store at 1. rewrite Hw.
    unfold store at 1. cbn [m_ptRobotState emit set_record with_os].
    rewrite Hw. rewrite IH by (cbn; exact Hw).
    cbn. rewrite <- !app_assoc. reflexivity.
Qed.

Lemma rx_count_bounds t :
  0 <= rx_count t < 256 /\
  (Z.to_nat (rx_count t) <= length (packets t))%nat /\
  (Z.to_nat (rx_count t) <= KILOBOT_MAX_RX)%nat.
Proof.
  unfold rx_count.
  pose proof (Min_UInt8_range (Z.of_nat (length (packets t)))
                (Z.of_nat KILOBOT_MAX_RX)).
  pose proof (Min_UInt8_le_l (Z.of_nat (length (packets t)))
                (Z.of_nat KILOBOT_MAX_RX)).
  pose proof (Min_UInt8_le_r (Z.of_nat (length (packets t)))
                (Z.of_nat KILOBOT_MAX_RX)).
  lia.
Qed.

Lemma rx_count_indices t :
  Forall (fun i => (i < length (packets t))%nat /\ (i < KILOBOT_MAX_RX)%nat)
    (seq 0 (Z.to_nat (rx_count t))).
Proof.
  destruct (rx_count_bounds t) as (_ & Hl & Hm).
  apply List.Forall_forall. intros i Hi. apply in_seq in Hi. lia.
Qed.

(** Unfolding of the monadic combinators and of the world updates. *)
Ltac mred :=
  cbv beta iota zeta delta
    [bind get modify when ret_ load store emit
     set_record set_child set_errno set_pointer set_rng set_fd
     set_behavior_pid with_os with_members with_devices
     m_ptRobotState m_pcMotors m_pcLED m_pcLight m_pcCommA m_pcCommS
     m_pcRNG m_nSharedMemFD m_nDebugInfoFD m_tBehaviorPID
     w_pid w_id w_errno w_record w_child w_trace negb andb fst snd].

Lemma copy_packets_rx_message n pkts r :
  (n <= length pkts)%nat ->
  (n <= length (rx_message r))%nat ->
  rx_message (copy_packets (seq 0 n) pkts r)
  = take n (Message <$> pkts) ++ drop n (rx_message r).
Proof.
  induction n as [|n IH]; intros Hp Hr.
  - reflexivity.
  - rewrite seq_S, copy_packets_app
      by (apply List.Forall_forall; intros i Hi; apply in_seq in Hi; lia).
    destruct (lookup_lt_is_Some_2 pkts n) as [p Hp']; [lia|].
    cbn [copy_packets Nat.add]. rewrite Hp'. cbn [rx_message set_rx_distance
      set_rx_message copy_packets].
    rewrite IH by lia.
    assert (Hlen : length (take n (Message <$> pkts)) = n)
      by (rewrite length_take, length_fmap; lia).
    rewrite insert_app_r_alt by lia.
    rewrite Hlen, Nat.sub_diag.
    rewrite (take_S_r (Message <$> pkts) n (Message p))
      by (rewrite list_lookup_fmap, Hp'; reflexivity).
    rewrite <- app_assoc. f_equal.
    destruct (drop n (rx_message r)) as [|m ms] eqn:Hd.
    + apply (f_equal length) in Hd. rewrite length_drop in Hd.
      cbn in Hd. lia.
    + cbn. f_equal.
      change ms with (drop 1 (m :: ms)). rewrite <- Hd, drop_drop.
      f_equal. lia.
Qed.

Lemma copy_packets_rx_distance n pkts r :
  (n <= length pkts)%nat ->
  (n <= length (rx_distance r))%nat ->
  rx_distance (copy_packets (seq 0 n) pkts r)
  = take n (Distance <$> pkts) ++ drop n (rx_distance r).
Proof.
  induction n as [|n IH]; intros Hp Hr.
  - reflexivity.
  - rewrite seq_S, copy_packets_app
      by (apply List.Forall_forall; intros i Hi; apply in_seq in Hi; lia).
    destruct (lookup_lt_is_Some_2 pkts n) as [p Hp']; [lia|].
    cbn [copy_packets Nat.add]. rewrite Hp'. cbn [rx_distance set_rx_distance
      set_rx_message copy_packets].
    rewrite IH by lia.
    assert (Hlen : length (take n (Distance <$> pkts)) = n)
      by (rewrite length_take, length_fmap; lia).
    rewrite insert_app_r_alt by lia.
    rewrite Hlen, Nat.sub_diag.
    rewrite (take_S_r (Distance <$> pkts) n (Distance p))
      by (rewrite list_lookup_fmap, Hp'; reflexivity).
    rewrite <- app_assoc. f_equal.
    destruct (drop n (rx_distance r)) as [|m ms] eqn:Hd.
    + apply (f_equal length) in Hd. rewrite length_drop in Hd.
      cbn in Hd. lia.
    + cbn. f_equal.
      change ms with (drop 1 (m :: ms)). rewrite <- Hd, drop_drop.
      f_equal. lia.
Qed.

(** ** What the sensor part does to the record *)

Lemma sensor_record_outputs light commS t r :
  outputs (sensor_record light commS t r) = outputs r /\
  voltage (sensor_record light commS t r) = voltage r /\
  temperature (sensor_record light commS t r) = temperature r.
Proof.
  unfold sensor_record, outputs.
  destruct light, commS, (bool_decide (length (packets t) = 0%nat)),
    (message_sent t); cbn; try copy_frame; repeat split.
Qed.

Lemma sensor_record_tx_state light commS t r :
  tx_state (sensor_record light commS t r)
  = if commS && message_sent t then 2 else tx_state r.
Proof.
  unfold sensor_record.
  destruct light, commS, (bool_decide (length (packets t) = 0%nat)),
    (message_sent t); cbn; try copy_frame; reflexivity.
Qed.

Lemma sensor_record_ambientlight light commS t r :
  ambientlight (sensor_record light commS t r)
  = if light then light_reading t else ambientlight r.
Proof.
  unfold sensor_record.
  destruct light, commS, (bool_decide (length (packets t) = 0%nat)),
    (message_sent t); cbn; try copy_frame; reflexivity.
Qed.

Lemma sensor_record_inbox_quiet light commS t r :
  commS = false \/ packets t = [] ->
  inbox (sensor_record light commS t r) = inbox r.
Proof.
  intros H. unfold sensor_record.
  destruct H as [-> | ->].
  - destruct light; reflexivity.
  - rewrite bool_decide_eq_true_2 by reflexivity.
    destruct light, commS, (message_sent t); reflexivity.
Qed.

Lemma sensor_record_rx_state light t r :
  packets t <> [] ->
  rx_state (sensor_record light true t r) = rx_count t.
Proof.
  intros Hne. unfold sensor_record.
  rewrite bool_decide_eq_false_2
    by (destruct (packets t); [congruence | discriminate]).
  destruct light, (message_sent t); cbn; copy_frame; reflexivity.
Qed.

Lemma sensor_record_rx_arrays light t r :
  packets t <> [] ->
  length (rx_message r) = KILOBOT_MAX_RX ->
  length (rx_distance r) = KILOBOT_MAX_RX ->
  let n := Z.to_nat (rx_count t) in
  rx_message (sensor_record light true t r)
  = take n (Message <$> packets t) ++ drop n (rx_message r) /\
  rx_distance (sensor_record light true t r)
  = take n (Distance <$> packets t) ++ drop n (rx_distance r).
Proof.
  intros Hne Hm Hd n. unfold sensor_record.
  rewrite bool_decide_eq_false_2
    by (destruct (packets t); [congruence | discriminate]).
  destruct (rx_count_bounds t) as (_ & Hl & Hmax). fold n in Hl, Hmax.
  destruct light, (message_sent t); cbn;
    (rewrite copy_packets_rx_message by (cbn; lia));
    (rewrite copy_packets_rx_distance by (cbn; lia));
    split; reflexivity.
Qed.

(** ** The three parts of [ControlStep] *)

Lemma set_sensor_values_eq t w :
  m_ptRobotState w = Mapped ->
  set_sensor_values t w
  = (Ret tt,
     with_os (w_errno w)
       (sensor_record (m_pcLight w) (m_pcCommS w) t (w_record w))
       (w_child w)
       (w_trace w ++ sensor_events (m_pcLight w) (m_pcCommS w) t) w).
Proof.
  intros Hw. destruct w as [p mo le li ca cs rng fd dfd bpid pid id e r c tr].
  cbn in Hw. subst p.
  unfold set_sensor_values, sensor_record, sensor_events.
  fold (rx_count t).
  destruct li, cs; mred;
    destruct (bool_decide (length (packets t) = 0%nat)); mred;
    try (rewrite (for_each_copy (packets t) _ (rx_count_indices t))
           by reflexivity; mred);
    destruct (message_sent t); mred;
    rewrite <- ?app_assoc, ?app_nil_r; reflexivity.
Qed.

Lemma sensor_events_store light commS t :
  Forall (fun e => is_store e = true) (sensor_events light commS t).
Proof.
  unfold sensor_events.
  destruct light, commS, (bool_decide (length (packets t) = 0%nat)),
    (message_sent t);
    repeat (apply Forall_app; split);
    repeat constructor; try apply copy_events_store.
Qed.

Lemma resume_and_wait_alive t w :
  alive (w_child w) = true ->
  resume_and_wait t w
  = (wait_outcome (snd (child_run (behavior t) (w_record w))),
     with_os (w_errno w) (fst (child_run (behavior t) (w_record w)))
       (phase_after (snd (child_run (behavior t) (w_record w))))
       (w_trace w ++ [EvKill (m_tBehaviorPID w) SIGCONT;
                      EvWaitpid (m_tBehaviorPID w) WUNTRACED]) w).
Proof.
  destruct w as [p mo le li ca cs rng fd dfd bpid pid id e r c tr].
  cbn [w_child]. intros Hc.
  unfold resume_and_wait, sys_kill, sys_waitpid.
  destruct c; try discriminate Hc; mred;
    destruct (child_run (behavior t) r) as [r' []]; mred;
    rewrite <- ?app_assoc; reflexivity.
Qed.

Lemma resume_and_wait_gone t w :
  alive (w_child w) = false ->
  resume_and_wait t w
  = (Ret tt,
     with_os ECHILD (w_record w) (w_child w)
       (w_trace w ++ [EvKill (m_tBehaviorPID w) SIGCONT;
                      EvWaitpid (m_tBehaviorPID w) WUNTRACED]) w).
Proof.
  destruct w as [p mo le li ca cs rng fd dfd bpid pid id e r c tr].
  cbn [w_child]. intros Hc.
  unfold resume_and_wait, sys_kill, sys_waitpid.
  destruct c; try discriminate Hc; mred;
    rewrite <- ?app_assoc; reflexivity.
Qed.

Lemma set_actuator_values_eq w :
  m_ptRobotState w = Mapped ->
  set_actuator_values w
  = (Ret tt,
     with_os (w_errno w) (w_record w) (w_child w)
       (w_trace w ++
        actuator_events (m_pcMotors w) (m_pcLED w) (m_pcCommA w)
          (w_record w)) w).
Proof.
  intros Hw. destruct w as [p mo le li ca cs rng fd dfd bpid pid id e r c tr].
  cbn in Hw. subst p.
  unfold set_actuator_values, actuator_events.
  destruct mo, le, ca; mred; try destruct (tx_state r =? 1); mred;
    rewrite <- ?app_assoc, ?app_nil_r; reflexivity.
Qed.

Lemma actuator_events_actuation motors led commA r :
  Forall (fun e => is_actuation e = true)
    (actuator_events motors led commA r).
Proof.
  unfold actuator_events.
  destruct motors, led, (commA && (tx_state r =? 1));
    repeat (apply Forall_app; split); repeat constructor.
Qed.

Lemma with_os_with_os e r c tr e' r' c' tr' w :
  with_os e r c tr (with_os e' r' c' tr' w) = with_os e r c tr w.
Proof. reflexivity. Qed.

Ltac wsimpl :=
  cbn [with_os w_errno w_record w_child w_trace m_pcMotors m_pcLED m_pcLight
       m_pcCommA m_pcCommS m_pcRNG m_nSharedMemFD m_nDebugInfoFD
       m_tBehaviorPID m_ptRobotState w_pid w_id wait_outcome phase_after];
  rewrite <- ?app_assoc.

(** ** One tick *)

Lemma ControlStep_returns t w :
  m_ptRobotState w = Mapped ->
  (alive (w_child w) = true -> tick_end t w <> Spins) ->
  ControlStep t w
  = (Ret tt,
     with_os (tick_errno w) (tick_record t w) (tick_child t w)
       (w_trace w ++ tick_events t w) w).
Proof.
  intros Hw Hcoop.
  unfold ControlStep. unfold bind at 1.
  rewrite (set_sensor_values_eq t w Hw). fold (handed_record t w).
  unfold bind at 1.
  unfold tick_events, tick_errno, tick_record, tick_child, tick_end in *.
  destruct (alive (w_child w)) eqn:Hal.
  - rewrite resume_and_wait_alive by exact Hal.
    specialize (Hcoop eq_refl). wsimpl.
    destruct (snd (child_run (behavior t) (handed_record t w))) eqn:He;
      [| |congruence];
      wsimpl; rewrite set_actuator_values_eq by exact Hw;
      wsimpl; reflexivity.
  - rewrite resume_and_wait_gone by exact Hal.
    rewrite set_actuator_values_eq by exact Hw.
    wsimpl. reflexivity.
Qed.

Lemma ControlStep_hangs t w :
  m_ptRobotState w = Mapped ->
  alive (w_child w) = true ->
  tick_end t w = Spins ->
  ControlStep t w
  = (Hang,
     with_os (w_errno w) (tick_record t w) Running
       (w_trace w ++ sensor_events (m_pcLight w) (m_pcCommS w) t ++
        [EvKill (m_tBehaviorPID w) SIGCONT;
         EvWaitpid (m_tBehaviorPID w) WUNTRACED]) w).
Proof.
  intros Hw Hal He.
  unfold ControlStep. unfold bind at 1.
  rewrite (set_sensor_values_eq t w Hw). fold (handed_record t w).
  unfold bind at 1.
  unfold tick_record, tick_end in *.
  rewrite resume_and_wait_alive by exact Hal.
  wsimpl. rewrite He, Hal. wsimpl. reflexivity.
Qed.

Lemma tick_events_shape t w : tick_shape (m_tBehaviorPID w) (tick_events t w).
Proof.
  exists (sensor_events (m_pcLight w) (m_pcCommS w) t),
    (actuator_events (m_pcMotors w) (m_pcLED w) (m_pcCommA w)
       (tick_record t w)).
  split; [reflexivity|].
  split; [apply sensor_events_store | apply actuator_events_actuation].
Qed.

(** Whatever the outcome, a tick on a mapped record leaves the record that
    [tick_record] describes and keeps the members. *)
Lemma ControlStep_record t w o w' :
  m_ptRobotState w = Mapped ->
  ControlStep t w = (o, w') ->
  (o = Ret tt \/ o = Hang) /\
  w_record w' = tick_record t w /\
  m_ptRobotState w' = Mapped /\
  m_tBehaviorPID w' = m_tBehaviorPID w.
Proof.
  intros Hw Hstep.
  destruct (alive (w_child w)) eqn:Hal.
  - destruct (tick_end t w) eqn:He.
    + rewrite ControlStep_returns in Hstep by (rewrite ?He; congruence).
      inversion Hstep; subst. cbn. auto.
    + rewrite ControlStep_returns in Hstep by (rewrite ?He; congruence).
      inversion Hstep; subst. cbn. auto.
    + rewrite ControlStep_hangs in Hstep by assumption.
      inversion Hstep; subst. cbn. auto.
  - rewrite ControlStep_returns in Hstep by (rewrite ?Hal; congruence).
    inversion Hstep; subst. cbn. auto.
Qed.

(** ** Init *)

Ltac mred_in H :=
  cbv beta iota zeta delta
    [bind get modify when ret_ load store emit
     set_record set_child set_errno set_pointer set_rng set_fd
     set_behavior_pid with_os with_members with_devices
     m_ptRobotState m_pcMotors m_pcLED m_pcLight m_pcCommA m_pcCommS
     m_pcRNG m_nSharedMemFD m_nDebugInfoFD m_tBehaviorPID
     w_pid w_id w_errno w_record w_child w_trace negb andb fst snd] in H.

Ltac init_unfold_in H :=
  unfold Init, Init_with, try_catch, init_devices, GetNodeAttribute,
    sys_mmap, sys_fork, sys_execl, syscall, memset_zero,
    THROW_ARGOSEXCEPTION, THROW_ARGOSEXCEPTION_NESTED in H;
  change (ret {| ret := 0; err := 0 |} <? 0) with false in H;
  mred_in H.

Ltac case_in H :=
  match type of H with
  | context [if (?a <? ?b) then _ else _] => destruct (Z.ltb_spec a b)
  | context [if (?a =? ?b) then _ else _] => destruct (Z.eqb_spec a b)
  | context [match behavior_attr ?e with _ => _ end] =>
      destruct (behavior_attr e) eqn:?
  | context [match os_execl ?e with _ => _ end] =>
      destruct (os_execl e) eqn:?
  end.

(** The world in which a successful [Init] leaves the parent. *)
Lemma Init_returns_inv env w0 w1 :
  Init env w0 = (Ret tt, w1) ->
  m_ptRobotState w1 = Mapped /\
  w_record w1 = zero_state /\
  w_child w1 = Running /\
  m_tBehaviorPID w1 = ret (os_fork env) /\
  0 < ret (os_fork env).
Proof.
  intros H.
  destruct w0 as [p mo le li ca cs rng fd dfd bpid pid id e r c tr].
  init_unfold_in H.
  repeat (case_in H; mred_in H; try discriminate H);
    inversion H; subst; cbn; repeat split; lia.
Qed.

(** Where the object holds the record, [Init_on] is [Init]. *)
Lemma Init_on_backed sized_before env :
  sized_before = true \/ 0 <= ret (os_ftruncate env) ->
  Init_on sized_before env = Init env.
Proof.
  intros H. unfold Init_on, Init, memset_object.
  destruct H as [-> | H]; [reflexivity|].
  apply Z.ltb_ge in H. rewrite H.
  destruct sized_before; reflexivity.
Qed.

(** [Init] evaluated along its straight path: every call up to the fork
    answers as the guards require, whatever [ftruncate] answered. *)
Lemma Init_straight env w path :
  behavior_attr env = inr path ->
  0 <= ret (os_open env) ->
  0 <= ret (os_shm_open env) ->
  ret (os_mmap env) <> -1 ->
  0 < ret (os_fork env) ->
  exists w',
    Init env w = (Ret tt, w') /\
    w_trace w' =
      w_trace w ++
      [EvOpen path; EvClose (ret (os_open env));
       EvShmOpen (shm_name (w_pid w) (w_id w));
       EvFtruncate (ret (os_shm_open env));
       EvMmap (ret (os_shm_open env)); EvMemset; EvFork] /\
    m_ptRobotState w' = Mapped /\
    w_child w' = Running.
Proof.
  intros Hattr Hopen Hshm Hmmap Hfork.
  destruct (Init env w) as [o w'] eqn:H. exists w'.
  destruct w as [p mo le li ca cs rng fd dfd bpid pid id e r c tr].
  init_unfold_in H. rewrite Hattr in H. mred_in H.
  repeat (case_in H; mred_in H; try lia);
    inversion H; subst; cbn; rewrite <- ?app_assoc; repeat split.
Qed.

(** The guards of [Init] that do fire. *)
Lemma Init_open_fails env w path :
  behavior_attr env = inr path ->
  ret (os_open env) < 0 ->
  Init env w
  = (Throw
       (ARGoSNested
          ("Error initializing the Kilobot controller for robot "
           +:+ w_id w)
          (ARGoSException
             ("Opening behavior file " +:+ dquote +:+ path +:+ dquote
              +:+ ": " +:+ strerror env (err (os_open env))))),
     with_os (err (os_open env)) (w_record w) (w_child w)
       (w_trace w ++ [EvOpen path])
       (with_devices
          (if has_motors env then true else m_pcMotors w)
          (if has_led env then true else m_pcLED w)
          (if has_light env then true else m_pcLight w)
          (if has_commA env then true else m_pcCommA w)
          (if has_commS env then true else m_pcCommS w) w)).
Proof.
  intros Hattr Hopen.
  destruct (Init env w) as [o w'] eqn:H.
  destruct w as [p mo le li ca cs rng fd dfd bpid pid id e r c tr].
  init_unfold_in H. rewrite Hattr in H. mred_in H.
  repeat (case_in H; mred_in H; try lia).
  inversion H; subst. reflexivity.
Qed.

Lemma Init_shm_open_fails env w path :
  behavior_attr env = inr path ->
  0 <= ret (os_open env) ->
  ret (os_shm_open env) < 0 ->
  exists w',
    Init env w
    = (Throw
         (ARGoSNested
            ("Error initializing the Kilobot controller for robot "
             +:+ w_id w)
            (ARGoSException
               ("Creating a shared memory area for " +:+ w_id w +:+ ": "
                +:+ strerror env (err (os_shm_open env))))), w') /\
    count is_fork (w_trace w') = count is_fork (w_trace w).
Proof.
  intros Hattr Hopen Hshm.
  destruct (Init env w) as [o w'] eqn:H. exists w'.
  destruct w as [p mo le li ca cs rng fd dfd bpid pid id e r c tr].
  init_unfold_in H. rewrite Hattr in H. mred_in H.
  repeat (case_in H; mred_in H; try lia).
  inversion H; subst. split; [reflexivity|].
  cbn [w_trace]. rewrite !count_app. cbn. lia.
Qed.

Lemma Init_mmap_fails env w path :
  behavior_attr env = inr path ->
  0 <= ret (os_open env) ->
  0 <= ret (os_shm_open env) ->
  ret (os_mmap env) = -1 ->
  exists w',
    Init env w
    = (Throw
         (ARGoSNested
            ("Error initializing the Kilobot controller for robot "
             +:+ w_id w)
            (ARGoSException
               ("Mmapping the shared memory area of " +:+ w_id w +:+ ": "
                +:+ strerror env (err (os_mmap env))))), w') /\
    count is_fork (w_trace w') = count is_fork (w_trace w).
Proof.
  intros Hattr Hopen Hshm Hmmap.
  destruct (Init env w) as [o w'] eqn:H. exists w'.
  destruct w as [p mo le li ca cs rng fd dfd bpid pid id e r c tr].
  init_unfold_in H. rewrite Hattr in H. mred_in H.
  repeat (case_in H; mred_in H; try lia);
    inversion H; subst; (split; [reflexivity|]);
    cbn [w_trace]; rewrite !count_app; cbn; lia.
Qed.

(** ** Runs of ticks *)

Lemma ControlStep_Ret_inv t w w' :
  m_ptRobotState w = Mapped ->
  ControlStep t w = (Ret tt, w') ->
  w' = with_os (tick_errno w) (tick_record t w) (tick_child t w)
         (w_trace w ++ tick_events t w) w.
Proof.
  intros Hw Hstep.
  destruct (alive (w_child w)) eqn:Hal.
  - destruct (tick_end t w) eqn:He.
    + rewrite ControlStep_returns in Hstep by (rewrite ?He; congruence).
      congruence.
    + rewrite ControlStep_returns in Hstep by (rewrite ?He; congruence).
      congruence.
    + rewrite ControlStep_hangs in Hstep by assumption. discriminate.
  - rewrite ControlStep_returns in Hstep by (rewrite ?Hal; congruence).
    congruence.
Qed.

Lemma ControlSteps_returns ts :
  forall w,
    m_ptRobotState w = Mapped ->
    Forall cooperative ts ->
    exists w2, ControlSteps ts w = (Ret tt, w2).
Proof.
  induction ts as [|t ts IH]; intros w Hw Hts.
  - exists w. reflexivity.
  - apply Forall_cons in Hts as [Ht Hts].
    pose proof (ControlStep_returns t w Hw (fun _ => Ht _)) as Hstep.
    cbn [ControlSteps]. unfold bind at 1. rewrite Hstep.
    apply IH; [exact Hw | exact Hts].
Qed.

Lemma ControlSteps_log ts :
  forall w w2,
    m_ptRobotState w = Mapped ->
    ControlSteps ts w = (Ret tt, w2) ->
    exists segs,
      w_trace w2 = w_trace w ++ concat segs /\
      length segs = length ts /\
      Forall (tick_shape (m_tBehaviorPID w)) segs.
Proof.
  induction ts as [|t ts IH]; intros w w2 Hw Hrun.
  - exists []. cbn in *. inversion Hrun; subst.
    rewrite app_nil_r. repeat split; auto.
  - cbn [ControlSteps] in Hrun. unfold bind at 1 in Hrun.
    destruct (ControlStep t w) as [o w'] eqn:Hstep.
    destruct o as [[]| | | |]; try discriminate Hrun.
    pose proof (ControlStep_Ret_inv t w w' Hw Hstep) as ->.
    pose proof (fun Hp => IH _ w2 Hp Hrun) as IH'.
    destruct (IH' Hw) as (segs & Htr & Hlen & Hsh).
    exists (tick_events t w :: segs).
    split; [rewrite Htr; cbn; rewrite <- app_assoc; reflexivity|].
    split; [cbn; congruence|].
    constructor; [apply tick_events_shape | exact Hsh].
Qed.

(** ** Destroy *)

Lemma Destroy_child_gone d w :
  alive (w_child w) = false ->
  exists w',
    Destroy d w = (Ret tt, w') /\
    w_trace w' =
      w_trace w ++
      [EvKill (m_tBehaviorPID w) SIGTERM; EvKill (m_tBehaviorPID w) SIGCONT;
       EvWaitpid (m_tBehaviorPID w) (WIFEXITED (nStatus d));
       EvMunmap; EvClose (m_nSharedMemFD w);
       EvShmUnlink (shm_name (w_pid w) (w_id w))].
Proof.
  destruct w as [p mo le li ca cs rng fd dfd bpid pid id e r c tr].
  cbn [w_child]. intros Hc.
  unfold Destroy, sys_kill, sys_waitpid, sys_munmap, syscall.
  change (ret {| ret := 0; err := 0 |} <? 0) with false.
  destruct c; try discriminate Hc; mred;
    destruct p; mred; eexists; (split; [reflexivity|]);
    cbn; rewrite <- ?app_assoc; reflexivity.
Qed.

(** With a blocking wait, [Destroy] reaps a child that exits. *)
Lemma Destroy_blocking_reaps d w :
  alive (w_child w) = true ->
  WIFEXITED (nStatus d) = 0 ->
  snd (child_run (last_run d) (w_record w)) = Exits ->
  exists w', Destroy d w = (Ret tt, w') /\ w_child w' = Reaped.
Proof.
  destruct w as [p mo le li ca cs rng fd dfd bpid pid id e r c tr].
  cbn [w_child w_record]. intros Hc Hopt Hend.
  unfold Destroy, sys_kill, sys_waitpid, sys_munmap, syscall.
  change (ret {| ret := 0; err := 0 |} <? 0) with false.
  rewrite Hopt.
  change (has_flag 0 WNOHANG) with false.
  change (has_flag 0 WUNTRACED) with false.
  destruct c; try discriminate Hc; mred;
    destruct (child_run (last_run d) r) as [r' en]; cbn in Hend; subst en;
    destruct p; mred; eexists; (split; reflexivity).
Qed.

Lemma all_zero_zero_state : all_zero zero_state.
Proof.
  unfold all_zero, zero_state; cbn.
  rewrite !length_replicate.
  repeat split; apply Forall_replicate; reflexivity.
Qed.

Lemma Reset_Mapped w :
  m_ptRobotState w = Mapped ->
  Reset w
  = (Ret tt,
     with_os (w_errno w) zero_state (w_child w) (w_trace w ++ [EvMemset]) w).
Proof.
  intros Hw. unfold Reset, memset_zero. rewrite Hw. reflexivity.
Qed.

(** The count stored for a non-empty inbox never exceeds the capacity, and
    below 256 packets it is the smaller of the two. *)
Lemma rx_count_below_256 t :
  (length (packets t) < 256)%nat ->
  (KILOBOT_MAX_RX < 256)%nat ->
  rx_count t = Z.of_nat (Nat.min (length (packets t)) KILOBOT_MAX_RX).
Proof.
  intros Hl Hm. unfold rx_count.
  rewrite Min_UInt8_small by lia. lia.
Qed.

(** A tick split at the wait: the world [w1] in which the behavior
    process is resumed, and the record that the tick leaves. *)
Lemma ControlStep_split t w o w' :
  m_ptRobotState w = Mapped ->
  ControlStep t w = (o, w') ->
  exists w1,
    set_sensor_values t w = (Ret tt, w1) /\
    ControlStep t w = (resume_and_wait t ;; set_actuator_values) w1 /\
    w_record w1 = handed_record t w /\
    w_record w' =
      if alive (w_child w)
      then fst (child_run (behavior t) (w_record w1))
      else w_record w1.
Proof.
  intros Hw Hstep.
  eexists. split; [apply set_sensor_values_eq; exact Hw|].
  split.
  { unfold ControlStep. unfold bind at 1.
    rewrite (set_sensor_values_eq t w Hw). reflexivity. }
  split; [reflexivity|].
  destruct (ControlStep_record t w o w' Hw Hstep) as (_ & -> & _).
  reflexivity.
Qed.

(** * The claims *)

(** C1.  After a successful [Init], the log of every returned run of N
    calls to [ControlStep] is N segments, one per call, each made of
    stores into the state record, then one resume signal to the behavior
    process, then one wait under WUNTRACED, then actuator calls; so the
    run sent exactly N resume signals and waited exactly N times.  Such a
    run does return whenever the behavior ends each of its runs. *)
Theorem ControlSteps_one_resume_one_wait_per_call env w0 w1 ts :
  Init env w0 = (Ret tt, w1) ->
  (Forall cooperative ts -> exists w2, ControlSteps ts w1 = (Ret tt, w2)) /\
  (forall w2,
      ControlSteps ts w1 = (Ret tt, w2) ->
      exists segs,
        w_trace w2 = w_trace w1 ++ concat segs /\
        length segs = length ts /\
        Forall (tick_shape (m_tBehaviorPID w1)) segs /\
        count is_resume (concat segs) = length ts /\
        count is_wait (concat segs) = length ts).
Proof.
  intros Hinit.
  destruct (Init_returns_inv env w0 w1 Hinit) as (Hp & _).
  split; [apply ControlSteps_returns; exact Hp|].
  intros w2 Hrun.
  destruct (ControlSteps_log ts w1 w2 Hp Hrun) as (segs & Htr & Hlen & Hsh).
  destruct (concat_shape_counts _ _ Hsh) as [Hr Hw].
  exists segs. rewrite Hr, Hw, Hlen. repeat split; auto.
Qed.

(** C2, as amended.  When the behavior process exits during a tick
    instead of stopping, [ControlStep] returns normally, with the log and
    the record it has when the behavior stops; only the kernel's view of
    the child differs.  No error is raised. *)
Theorem ControlStep_exit_not_surfaced t w :
  m_ptRobotState w = Mapped ->
  alive (w_child w) = true ->
  exists w_e w_s,
    ControlStep (with_end Exits t) w = (Ret tt, w_e) /\
    ControlStep (with_end Suspends t) w = (Ret tt, w_s) /\
    w_trace w_e = w_trace w_s /\
    w_record w_e = w_record w_s /\
    w_child w_e = Reaped /\ w_child w_s = Stopped.
Proof.
  intros Hw Hal.
  do 2 eexists.
  split; [apply ControlStep_returns; [exact Hw | discriminate]|].
  split; [apply ControlStep_returns; [exact Hw | discriminate]|].
  unfold tick_child, tick_record, tick_events, tick_end, handed_record,
    sensor_record, sensor_events, rx_count.
  rewrite Hal. cbn. repeat split.
Qed.

(** C3, at 256 packets.  With a communication sensor that received 256
    packets in a tick, [ControlStep] stores 0 in [rx_state] and copies no
    packet, whatever the inbox capacity is. *)
Theorem ControlStep_rx_state_wraps_at_256 t w :
  m_ptRobotState w = Mapped ->
  m_pcCommS w = true ->
  length (packets t) = 256%nat ->
  exists w1,
    set_sensor_values t w = (Ret tt, w1) /\
    ControlStep t w = (resume_and_wait t ;; set_actuator_values) w1 /\
    rx_state (w_record w1) = 0 /\
    rx_message (w_record w1) = rx_message (w_record w) /\
    rx_distance (w_record w1) = rx_distance (w_record w).
Proof.
  intros Hw Hc Hlen.
  eexists. split; [apply set_sensor_values_eq; exact Hw|].
  split.
  { unfold ControlStep. unfold bind at 1.
    rewrite (set_sensor_values_eq t w Hw). reflexivity. }
  cbn [w_record with_os]. rewrite Hc. unfold sensor_record.
  assert (Hn : rx_count t = 0).
  { unfold rx_count. rewrite Hlen. apply Min_UInt8_256. }
  rewrite Hn, Hlen. cbn [Z.to_nat seq copy_packets].
  rewrite bool_decide_eq_false_2 by discriminate.
  destruct (m_pcLight w), (message_sent t); repeat split.
Qed.

(** C4, at a failing [ftruncate].  When the behavior file opens, the
    shared memory object is created and mapped and the fork would succeed,
    a failed [ftruncate] is never reported: its result is not looked at
    and [Init] goes on to [mmap].  On an object that already had the
    record's size, [Init] then zeroes the record, forks and returns
    normally; on a new object the [memset] is a bus error, before any
    fork.  In neither case does [Init] throw. *)
Theorem Init_ignores_ftruncate_failure sized_before env w path :
  behavior_attr env = inr path ->
  0 <= ret (os_open env) ->
  0 <= ret (os_shm_open env) ->
  ret (os_ftruncate env) < 0 ->
  ret (os_mmap env) <> -1 ->
  0 < ret (os_fork env) ->
  exists w',
    Init_on sized_before env w
    = ((if sized_before then Ret tt else Fault), w') /\
    w_trace w' =
      w_trace w ++
      [EvOpen path; EvClose (ret (os_open env));
       EvShmOpen (shm_name (w_pid w) (w_id w));
       EvFtruncate (ret (os_shm_open env));
       EvMmap (ret (os_shm_open env))] ++
      (if sized_before then [EvMemset; EvFork] else []) /\
    m_ptRobotState w' = Mapped /\
    w_child w' = (if sized_before then Running else w_child w) /\
    w_record w' = (if sized_before then zero_state else w_record w).
Proof.
  intros Hattr Hopen Hshm Hftr Hmmap Hfork.
  destruct sized_before.
  - change (Init_on true env) with (Init env).
    destruct (Init_straight env w path Hattr Hopen Hshm Hmmap Hfork)
      as (w' & Hinit & Htr & Hp & Hc).
    destruct (Init_returns_inv env w w' Hinit) as (_ & Hr & _).
    exists w'. repeat split; assumption.
  - unfold Init_on, memset_object.
    apply Z.ltb_lt in Hftr. rewrite Hftr. cbn [orb negb].
    destruct (Init_with (fun w0 => (Fault, w0)) env w) as [o w'] eqn:H.
    exists w'.
    destruct w as [p mo le li ca cs rng fd dfd bpid pid id e r c tr].
    init_unfold_in H. rewrite Hattr in H. mred_in H.
    repeat (case_in H; mred_in H; try lia);
      inversion H; subst; cbn; rewrite <- ?app_assoc; repeat split.
Qed.

(** C5.  When the behavior file cannot be opened, [Init] throws the
    nested exception that carries the path and the OS error, and it has
    made no call after the failed [open]: no fork is in the log, the
    child is as before and [m_tBehaviorPID] is unchanged. *)
Theorem Init_unopenable_behavior_no_fork env w path :
  behavior_attr env = inr path ->
  ret (os_open env) < 0 ->
  exists w',
    Init env w
    = (Throw
         (ARGoSNested
            ("Error initializing the Kilobot controller for robot "
             +:+ w_id w)
            (ARGoSException
               ("Opening behavior file " +:+ dquote +:+ path +:+ dquote
                +:+ ": " +:+ strerror env (err (os_open env))))), w') /\
    w_trace w' = w_trace w ++ [EvOpen path] /\
    count is_fork (w_trace w') = count is_fork (w_trace w) /\
    w_child w' = w_child w /\
    m_tBehaviorPID w' = m_tBehaviorPID w.
Proof.
  intros Hattr Hopen.
  eexists. split; [apply Init_open_fails; assumption|].
  cbn [w_trace w_child m_tBehaviorPID with_os with_devices].
  rewrite count_app. cbn. repeat split. lia.
Qed.

(** C6, at an [nStatus] whose low seven bits are zero.  With a behavior
    process that is alive and has not finished when the wait looks at it,
    [Destroy] issues its wait with option 1, which is WNOHANG, returns
    without the child having exited, and has by then unmapped the record
    and unlinked the shared memory object. *)
Theorem Destroy_closes_channel_without_waiting d w :
  Z.land (nStatus d) 127 = 0 ->
  alive (w_child w) = true ->
  child_prompt (last_run d) = false ->
  exists w',
    Destroy d w = (Ret tt, w') /\
    WIFEXITED (nStatus d) = WNOHANG /\
    w_trace w' = w_trace w ++ destroy_events WNOHANG w /\
    w_child w' = Running /\
    w_record w' = w_record w.
Proof.
  destruct w as [p mo le li ca cs rng fd dfd bpid pid id e r c tr].
  cbn [w_child w_record]. intros Hst Hc Hprompt.
  assert (Hopt : WIFEXITED (nStatus d) = 1)
    by (unfold WIFEXITED; rewrite Hst; reflexivity).
  unfold Destroy, sys_kill, sys_waitpid, sys_munmap, syscall, destroy_events.
  change (ret {| ret := 0; err := 0 |} <? 0) with false.
  rewrite Hopt, Hprompt.
  change (has_flag 1 WNOHANG) with true.
  destruct c; try discriminate Hc; mred;
    destruct p; mred; eexists; (split; [reflexivity|]);
    cbn; rewrite <- ?app_assoc; repeat split.
Qed.

(** C7.  [Reset] on a mapped record returns with every field zero,
    whatever the record held; a second [Reset] leaves the same all-zero
    record; and the record is all-zero when [Init] returns. *)
Theorem Reset_zeroes_record_idempotent w :
  m_ptRobotState w = Mapped ->
  exists w1 w2,
    Reset w = (Ret tt, w1) /\
    Reset w1 = (Ret tt, w2) /\
    w_record w1 = zero_state /\
    w_record w2 = w_record w1 /\
    all_zero (w_record w1) /\
    (forall env w0 wi,
        Init env w0 = (Ret tt, wi) -> all_zero (w_record wi)).
Proof.
  intros Hw. do 2 eexists.
  split; [apply Reset_Mapped; exact Hw|].
  split; [apply Reset_Mapped; exact Hw|].
  cbn [w_record with_os].
  split; [reflexivity|]. split; [reflexivity|].
  split; [apply all_zero_zero_state|].
  intros env w0 wi Hinit.
  destruct (Init_returns_inv env w0 wi Hinit) as (_ & -> & _).
  apply all_zero_zero_state.
Qed.

(** C8.  In a tick the simulator side stores into [tx_state] only the
    value 2, and only when the communication sensor exists and reports
    the last message as sent; otherwise it hands [tx_state] on as it was.
    After the wait it stores nothing.  So when [tx_state] is 2 before a
    tick and 1 after it, the behavior process was handed 2 and wrote 1. *)
Theorem ControlStep_never_marks_ready t w o w' :
  m_ptRobotState w = Mapped ->
  ControlStep t w = (o, w') ->
  exists w1,
    set_sensor_values t w = (Ret tt, w1) /\
    ControlStep t w = (resume_and_wait t ;; set_actuator_values) w1 /\
    tx_state (w_record w1) =
      (if m_pcCommS w && message_sent t then 2
       else tx_state (w_record w)) /\
    w_record w' =
      (if alive (w_child w)
       then fst (child_run (behavior t) (w_record w1))
       else w_record w1) /\
    (tx_state (w_record w) = 2 ->
     tx_state (w_record w') = 1 ->
     alive (w_child w) = true /\
     tx_state (w_record w1) = 2 /\
     tx_state (fst (child_run (behavior t) (w_record w1))) = 1).
Proof.
  intros Hw Hstep.
  destruct (ControlStep_split t w o w' Hw Hstep)
    as (w1 & Hs & Hrest & Hr1 & Hr').
  exists w1.
  assert (Htx : tx_state (w_record w1) =
                if m_pcCommS w && message_sent t then 2
                else tx_state (w_record w))
    by (rewrite Hr1; apply sensor_record_tx_state).
  repeat (split; [assumption|]).
  intros H2 H1.
  assert (Hh : tx_state (w_record w1) = 2)
    by (rewrite Htx; destruct (m_pcCommS w && message_sent t); auto).
  rewrite Hr' in H1.
  destruct (alive (w_child w)); [auto | lia].
Qed.

(** C9.  In a tick the simulator side stores nothing into [left_motor],
    [right_motor], [color] and [tx_message]: the behavior process is
    handed them as they were, and after the wait the record is the one
    the behavior process left (or, when that process is gone, the one it
    was handed). *)
Theorem ControlStep_keeps_behavior_outputs t w o w' :
  m_ptRobotState w = Mapped ->
  ControlStep t w = (o, w') ->
  exists w1,
    set_sensor_values t w = (Ret tt, w1) /\
    ControlStep t w = (resume_and_wait t ;; set_actuator_values) w1 /\
    left_motor (w_record w1) = left_motor (w_record w) /\
    right_motor (w_record w1) = right_motor (w_record w) /\
    color (w_record w1) = color (w_record w) /\
    tx_message (w_record w1) = tx_message (w_record w) /\
    w_record w' =
      (if alive (w_child w)
       then fst (child_run (behavior t) (w_record w1))
       else w_record w1).
Proof.
  intros Hw Hstep.
  destruct (ControlStep_split t w o w' Hw Hstep)
    as (w1 & Hs & Hrest & Hr1 & Hr').
  exists w1.
  destruct (sensor_record_outputs (m_pcLight w) (m_pcCommS w) t (w_record w))
    as (Hout & _).
  fold (handed_record t w) in Hout. rewrite <- Hr1 in Hout.
  unfold outputs in Hout. inversion Hout.
  repeat split; assumption.
Qed.

(** C10.  In a tick in which the communication sensor reports no packet,
    the behavior process is handed [rx_state], [rx_message] and
    [rx_distance] exactly as the record held them before the tick. *)
Theorem ControlStep_quiet_tick_keeps_inbox t w o w' :
  m_ptRobotState w = Mapped ->
  packets t = [] ->
  ControlStep t w = (o, w') ->
  exists w1,
    set_sensor_values t w = (Ret tt, w1) /\
    ControlStep t w = (resume_and_wait t ;; set_actuator_values) w1 /\
    rx_state (w_record w1) = rx_state (w_record w) /\
    rx_message (w_record w1) = rx_message (w_record w) /\
    rx_distance (w_record w1) = rx_distance (w_record w) /\
    w_record w' =
      (if alive (w_child w)
       then fst (child_run (behavior t) (w_record w1))
       else w_record w1).
Proof.
  intros Hw Hq Hstep.
  destruct (ControlStep_split t w o w' Hw Hstep)
    as (w1 & Hs & Hrest & Hr1 & Hr').
  exists w1.
  pose proof (sensor_record_inbox_quiet (m_pcLight w) (m_pcCommS w) t
                (w_record w) (or_intror Hq)) as Hin.
  fold (handed_record t w) in Hin. rewrite <- Hr1 in Hin.
  unfold inbox in Hin. inversion Hin.
  repeat split; assumption.
Qed.

(** * Further properties of the callbacks *)

(** ** Init *)

(** X1.  When the configuration tree has no [behavior] attribute, [Init]
    rethrows the framework's exception under its own prefix and has made no
    system call at all. *)
Theorem Init_missing_attribute_no_syscall env w ex :
  behavior_attr env = inl ex ->
  exists w',
    Init env w = (Throw (ARGoSNested (init_error_prefix (w_id w)) ex), w') /\
    w_trace w' = w_trace w /\
    w_child w' = w_child w /\
    m_ptRobotState w' = m_ptRobotState w /\
    m_nSharedMemFD w' = m_nSharedMemFD w.
Proof.
  intros Hattr.
  destruct (Init env w) as [o w'] eqn:H. exists w'.
  destruct w as [p mo le li ca cs rng fd dfd bpid pid id e r c tr].
  init_unfold_in H. rewrite Hattr in H. mred_in H.
  inversion H; subst. cbn. repeat split.
Qed.

(** X2.  Every exception that leaves [Init] is the outer handler's: it
    carries the prefix with the robot's id and nests the original
    exception; and a throwing [Init] has not changed the kernel's view of
    the behavior process. *)
Theorem Init_throws_only_wrapped env w e w' :
  Init env w = (Throw e, w') ->
  (exists inner, e = ARGoSNested (init_error_prefix (w_id w)) inner) /\
  w_child w' = w_child w.
Proof.
  intros H.
  destruct w as [p mo le li ca cs rng fd dfd bpid pid id e0 r c tr].
  init_unfold_in H.
  repeat (case_in H; mred_in H; try discriminate H; try (exfalso; lia));
    inversion H; subst; cbn [w_child w_trace w_id];
    (split; [eexists; reflexivity | reflexivity]).
Qed.

(** X3.  When [shm_open] fails, [Init] throws with the OS error text under
    its prefix; the behavior file was opened and closed, the failed
    descriptor is left in [m_nSharedMemFD], and neither a resize, a
    mapping, a [memset] nor a fork was attempted. *)
Theorem Init_shm_open_failure_stops env w path :
  behavior_attr env = inr path ->
  0 <= ret (os_open env) ->
  ret (os_shm_open env) < 0 ->
  exists w',
    Init env w
    = (Throw
         (ARGoSNested (init_error_prefix (w_id w))
            (ARGoSException
               ("Creating a shared memory area for " +:+ w_id w +:+ ": "
                +:+ strerror env (err (os_shm_open env))))), w') /\
    w_trace w' =
      w_trace w ++
      [EvOpen path; EvClose (ret (os_open env));
       EvShmOpen (shm_name (w_pid w) (w_id w))] /\
    m_nSharedMemFD w' = ret (os_shm_open env) /\
    m_ptRobotState w' = m_ptRobotState w /\
    w_record w' = w_record w.
Proof.
  intros Hattr Hopen Hshm.
  destruct (Init env w) as [o w'] eqn:H. exists w'.
  destruct w as [p mo le li ca cs rng fd dfd bpid pid id e r c tr].
  init_unfold_in H. rewrite Hattr in H. mred_in H.
  repeat (case_in H; mred_in H; try lia).
  inversion H; subst. cbn. rewrite <- ?app_assoc. repeat split.
Qed.

(** X4.  When [mmap] fails, [Init] throws with the OS error text; the
    record was not zeroed and no fork was made, and the log ends at the
    [mmap]: the shared memory object that was created is neither closed nor
    unlinked, and [m_ptRobotState] is left at MAP_FAILED. *)
Theorem Init_mmap_failure_leaves_object env w path :
  behavior_attr env = inr path ->
  0 <= ret (os_open env) ->
  0 <= ret (os_shm_open env) ->
  ret (os_mmap env) = -1 ->
  exists w',
    Init env w
    = (Throw
         (ARGoSNested (init_error_prefix (w_id w))
            (ARGoSException
               ("Mmapping the shared memory area of " +:+ w_id w +:+ ": "
                +:+ strerror env (err (os_mmap env))))), w') /\
    w_trace w' =
      w_trace w ++
      [EvOpen path; EvClose (ret (os_open env));
       EvShmOpen (shm_name (w_pid w) (w_id w));
       EvFtruncate (ret (os_shm_open env));
       EvMmap (ret (os_shm_open env))] /\
    m_ptRobotState w' = MAP_FAILED /\
    m_nSharedMemFD w' = ret (os_shm_open env) /\
    w_record w' = w_record w /\
    w_child w' = w_child w.
Proof.
  intros Hattr Hopen Hshm Hmmap.
  destruct (Init env w) as [o w'] eqn:H. exists w'.
  destruct w as [p mo le li ca cs rng fd dfd bpid pid id e r c tr].
  init_unfold_in H. rewrite Hattr in H. mred_in H.
  repeat (case_in H; mred_in H; try lia);
    inversion H; subst; cbn; rewrite <- ?app_assoc; repeat split.
Qed.

(** X5.  When [fork] fails, [Init] throws with the OS error text after the
    whole channel was set up: the record is mapped and zeroed, the negative
    result sits in [m_tBehaviorPID], and there is no behavior process. *)
Theorem Init_fork_failure_keeps_channel env w path :
  behavior_attr env = inr path ->
  0 <= ret (os_open env) ->
  0 <= ret (os_shm_open env) ->
  ret (os_mmap env) <> -1 ->
  ret (os_fork env) < 0 ->
  exists w',
    Init env w
    = (Throw
         (ARGoSNested (init_error_prefix (w_id w))
            (ARGoSException
               ("Forking the behavior process of " +:+ w_id w +:+ ": "
                +:+ strerror env (err (os_fork env))))), w') /\
    w_trace w' = w_trace w ++ init_events env path w /\
    m_ptRobotState w' = Mapped /\
    w_record w' = zero_state /\
    m_tBehaviorPID w' = ret (os_fork env) /\
    w_child w' = w_child w.
Proof.
  intros Hattr Hopen Hshm Hmmap Hfork.
  destruct (Init env w) as [o w'] eqn:H. exists w'.
  destruct w as [p mo le li ca cs rng fd dfd bpid pid id e r c tr].
  init_unfold_in H. rewrite Hattr in H. mred_in H.
  repeat (case_in H; mred_in H; try lia);
    inversion H; subst; cbn; rewrite <- ?app_assoc; repeat split.
Qed.

(** X6.  In the forked child, [Init] calls [execl] on the behavior path
    with the path, the parent's process id, the robot's id, the tick length
    and the seed, in this order.  When [execl] succeeds the process is
    replaced; when it returns, [Init] throws with the OS error text: the
    child never returns normally from [Init], and it does not exit either. *)
Theorem Init_in_child_execs_or_throws env w path :
  behavior_attr env = inr path ->
  0 <= ret (os_open env) ->
  0 <= ret (os_shm_open env) ->
  ret (os_mmap env) <> -1 ->
  ret (os_fork env) = 0 ->
  exists w',
    Init env w
    = (match os_execl env with
       | None => Replaced
       | Some e =>
           Throw
             (ARGoSNested (init_error_prefix (w_id w))
                (ARGoSException
                   ("Executing the behavior process of " +:+ w_id w +:+ ": "
                    +:+ path +:+ ": " +:+ strerror env e)))
       end, w') /\
    w_trace w' =
      w_trace w ++ init_events env path w ++
      [EvExecl path (behavior_args env path w)].
Proof.
  intros Hattr Hopen Hshm Hmmap Hfork.
  destruct (Init env w) as [o w'] eqn:H. exists w'.
  destruct w as [p mo le li ca cs rng fd dfd bpid pid id e r c tr].
  init_unfold_in H. rewrite Hattr in H. mred_in H.
  repeat (case_in H; mred_in H; try lia);
    inversion H; subst; cbn; rewrite <- ?app_assoc; repeat split.
Qed.

Lemma Init_devices_factor env w :
  Init env w
  = (fst (Init (without_devices env) w),
     with_devices
       (has_motors env || m_pcMotors w) (has_led env || m_pcLED w)
       (has_light env || m_pcLight w) (has_commA env || m_pcCommA w)
       (has_commS env || m_pcCommS w)
       (snd (Init (without_devices env) w))).
Proof.
  destruct (Init env w) as [o1 w1] eqn:H1.
  destruct (Init (without_devices env) w) as [o2 w2] eqn:H2.
  destruct w as [p mo le li ca cs rng fd dfd bpid pid id e r c tr].
  unfold without_devices in H2.
  init_unfold_in H1. init_unfold_in H2.
  cbn [has_motors has_led has_light has_commA has_commS behavior_attr
       os_open os_shm_open os_ftruncate os_mmap os_fork os_execl strerror
       clock_tick_ms rng_seed] in H2.
  repeat (case_in H1; mred_in H1);
    repeat (case_in H2; mred_in H2; try (exfalso; lia); try congruence);
    inversion H1; inversion H2; subst; reflexivity.
Qed.

(** X7.  No device is needed: [Init] has the same outcome and makes the
    same calls whether the devices exist or not, and it only ever turns a
    device pointer from NULL to set, never back. *)
Theorem Init_tolerates_absent_devices env w :
  fst (Init env w) = fst (Init (without_devices env) w) /\
  w_trace (snd (Init env w)) = w_trace (snd (Init (without_devices env) w)) /\
  m_pcMotors (snd (Init env w)) = has_motors env || m_pcMotors w /\
  m_pcLED (snd (Init env w)) = has_led env || m_pcLED w /\
  m_pcLight (snd (Init env w)) = has_light env || m_pcLight w /\
  m_pcCommA (snd (Init env w)) = has_commA env || m_pcCommA w /\
  m_pcCommS (snd (Init env w)) = has_commS env || m_pcCommS w.
Proof.
  rewrite (Init_devices_factor env w). repeat split.
Qed.

(** ** ControlStep: what the behavior process is handed *)

Lemma copy_packets_lengths idx pkts r :
  length (rx_message (copy_packets idx pkts r)) = length (rx_message r) /\
  length (rx_distance (copy_packets idx pkts r)) = length (rx_distance r).
Proof.
  revert r. induction idx as [|i idx IH]; intros r; cbn [copy_packets].
  - split; reflexivity.
  - destruct (pkts !! i) as [p|]; [|split; reflexivity].
    destruct (IH (set_rx_distance i (Distance p)
                    (set_rx_message i (Message p) r))) as [Hm Hd].
    rewrite Hm, Hd. cbn. rewrite !length_insert. split; reflexivity.
Qed.

Lemma sensor_record_lengths light commS t r :
  length (rx_message (sensor_record light commS t r)) = length (rx_message r)
  /\
  length (rx_distance (sensor_record light commS t r))
  = length (rx_distance r).
Proof.
  unfold sensor_record.
  destruct light, commS, (bool_decide (length (packets t) = 0%nat)),
    (message_sent t); cbn;
    try (match goal with
         | |- context [copy_packets ?i ?p ?r] =>
             destruct (copy_packets_lengths i p r) as [-> ->]
         end);
    split; reflexivity.
Qed.

(** X8.  In a tick the behavior process is handed the light sensor's
    reading in [ambientlight] when that sensor exists and the old value
    otherwise; [voltage] and [temperature] are never stored by the
    simulator side, with or without packets. *)
Theorem ControlStep_hands_light_reading t w o w' :
  m_ptRobotState w = Mapped ->
  ControlStep t w = (o, w') ->
  exists w1,
    set_sensor_values t w = (Ret tt, w1) /\
    ControlStep t w = (resume_and_wait t ;; set_actuator_values) w1 /\
    ambientlight (w_record w1) =
      (if m_pcLight w then light_reading t else ambientlight (w_record w)) /\
    voltage (w_record w1) = voltage (w_record w) /\
    temperature (w_record w1) = temperature (w_record w).
Proof.
  intros Hw Hstep.
  destruct (ControlStep_split t w o w' Hw Hstep)
    as (w1 & Hs & Hrest & Hr1 & _).
  exists w1. rewrite Hr1. unfold handed_record.
  destruct (sensor_record_outputs (m_pcLight w) (m_pcCommS w) t (w_record w))
    as (_ & Hv & Ht).
  rewrite sensor_record_ambientlight, Hv, Ht. repeat split; assumption.
Qed.

(** X9.  With a communication sensor that received between 1 and 255
    packets, and an inbox capacity below 256, the behavior process is
    handed the count min(packets, capacity), the first that many messages
    and distances in reception order, and behind them the array entries as
    they were before: entries past the count are not cleared. *)
Theorem ControlStep_copies_first_packets t w o w' :
  m_ptRobotState w = Mapped ->
  m_pcCommS w = true ->
  (0 < length (packets t) < 256)%nat ->
  (KILOBOT_MAX_RX < 256)%nat ->
  length (rx_message (w_record w)) = KILOBOT_MAX_RX ->
  length (rx_distance (w_record w)) = KILOBOT_MAX_RX ->
  ControlStep t w = (o, w') ->
  let n := Nat.min (length (packets t)) KILOBOT_MAX_RX in
  exists w1,
    set_sensor_values t w = (Ret tt, w1) /\
    ControlStep t w = (resume_and_wait t ;; set_actuator_values) w1 /\
    rx_state (w_record w1) = Z.of_nat n /\
    rx_message (w_record w1)
    = take n (Message <$> packets t) ++ drop n (rx_message (w_record w)) /\
    rx_distance (w_record w1)
    = take n (Distance <$> packets t) ++ drop n (rx_distance (w_record w)).
Proof.
  intros Hw Hc Hlen Hmax Hm Hd Hstep n.
  destruct (ControlStep_split t w o w' Hw Hstep)
    as (w1 & Hs & Hrest & Hr1 & _).
  exists w1. rewrite Hr1. unfold handed_record. rewrite Hc.
  assert (Hne : packets t <> [])
    by (destruct (packets t); [cbn in Hlen; lia | discriminate]).
  pose proof (rx_count_below_256 t (proj2 Hlen) Hmax) as Hcount.
  fold n in Hcount.
  destruct (sensor_record_rx_arrays (m_pcLight w) t (w_record w) Hne Hm Hd)
    as [Hrm Hrd].
  rewrite Hcount, Nat2Z.id in Hrm, Hrd.
  rewrite (sensor_record_rx_state _ t _ Hne), Hcount.
  repeat split; assumption.
Qed.

(** X10.  For any number of received packets the sensor part of a tick on
    a mapped record completes without an invalid access: the stored count
    is at most the capacity, at most the number of packets and below 256,
    and both inbox arrays keep their lengths. *)
Theorem set_sensor_values_stays_in_bounds t w :
  m_ptRobotState w = Mapped ->
  exists w1,
    set_sensor_values t w = (Ret tt, w1) /\
    length (rx_message (w_record w1)) = length (rx_message (w_record w)) /\
    length (rx_distance (w_record w1)) = length (rx_distance (w_record w)) /\
    (m_pcCommS w = true -> packets t <> [] ->
     0 <= rx_state (w_record w1) < 256 /\
     rx_state (w_record w1) <= Z.of_nat KILOBOT_MAX_RX /\
     rx_state (w_record w1) <= Z.of_nat (length (packets t))).
Proof.
  intros Hw.
  eexists. split; [apply set_sensor_values_eq; exact Hw|].
  cbn [w_record with_os].
  destruct (sensor_record_lengths (m_pcLight w) (m_pcCommS w) t (w_record w))
    as [Hm Hd].
  split; [exact Hm|]. split; [exact Hd|].
  intros Hc Hne. rewrite Hc, (sensor_record_rx_state _ t _ Hne).
  destruct (rx_count_bounds t) as (Hr & Hl & Hmax). lia.
Qed.

(** ** ControlStep: after the wait *)

Lemma filter_none_of (p q : event -> bool) l :
  (forall e, q e = true -> p e = false) ->
  Forall (fun e => q e = true) l -> List.filter p l = [].
Proof.
  intros Hpq Hl. induction Hl as [|e l He _ IH]; cbn; [reflexivity|].
  rewrite (Hpq e He). exact IH.
Qed.

Lemma filter_all_of (p : event -> bool) l :
  Forall (fun e => p e = true) l -> List.filter p l = l.
Proof.
  intros Hl. induction Hl as [|e l He _ IH]; cbn; [reflexivity|].
  rewrite He, IH. reflexivity.
Qed.

Lemma store_not_actuation e : is_store e = true -> is_actuation e = false.
Proof. destruct e; cbn; congruence. Qed.

Lemma tick_events_actuation t w :
  List.filter is_actuation (tick_events t w)
  = actuator_events (m_pcMotors w) (m_pcLED w) (m_pcCommA w) (tick_record t w).
Proof.
  unfold tick_events. rewrite !List.filter_app.
  rewrite (filter_none_of is_actuation is_store _ store_not_actuation
             (sensor_events_store _ _ t)).
  rewrite (filter_all_of is_actuation _ (actuator_events_actuation _ _ _ _)).
  reflexivity.
Qed.

(** X11.  When a tick returns, its actuator calls are computed from the
    record as the wait left it, in this order: with motors, one velocity
    command from [right_motor] then [left_motor], each scaled by 3/255;
    with LEDs, one colour for LED 0 from the three channels of [color],
    each scaled by 255/3 and narrowed to a byte; and one message hand-over
    of [tx_message] exactly when the radio exists and [tx_state] is 1. *)
Theorem ControlStep_actuates_from_final_record t w w' :
  m_ptRobotState w = Mapped ->
  ControlStep t w = (Ret tt, w') ->
  exists evs,
    w_trace w' = w_trace w ++ evs /\
    List.filter is_actuation evs =
      (if m_pcMotors w
       then [EvSetLinearVelocity
               (3 * inject_Z (right_motor (w_record w')) / 255)%Q
               (3 * inject_Z (left_motor (w_record w')) / 255)%Q]
       else []) ++
      (if m_pcLED w
       then [EvSetSingleColor 0
               (to_UInt8 (255 * RED (color (w_record w')) ÷ 3))
               (to_UInt8 (255 * GREEN (color (w_record w')) ÷ 3))
               (to_UInt8 (255 * BLUE (color (w_record w')) ÷ 3))]
       else []) ++
      (if m_pcCommA w && (tx_state (w_record w') =? 1)
       then [EvSetMessage (tx_message (w_record w'))]
       else []).
Proof.
  intros Hw Hstep.
  rewrite (ControlStep_Ret_inv t w w' Hw Hstep).
  exists (tick_events t w). split; [reflexivity|].
  rewrite tick_events_actuation. reflexivity.
Qed.

(** X12.  With two-bit colour channels, the LED command of a returned
    tick loses nothing in the narrowing to a byte: on a controller with
    LEDs the tick sets LED 0 to 85 times each channel of [color] as the
    wait left it, and it issues no other colour command. *)
Theorem ControlStep_led_components_exact t w w' :
  m_ptRobotState w = Mapped ->
  ControlStep t w = (Ret tt, w') ->
  (forall c, 0 <= RED c <= 3 /\ 0 <= GREEN c <= 3 /\ 0 <= BLUE c <= 3) ->
  exists evs,
    w_trace w' = w_trace w ++ evs /\
    (m_pcLED w = true ->
     In (EvSetSingleColor 0
           (85 * RED (color (w_record w')))
           (85 * GREEN (color (w_record w')))
           (85 * BLUE (color (w_record w')))) evs) /\
    (forall l r g b, In (EvSetSingleColor l r g b) evs ->
       m_pcLED w = true /\
       l = 0 /\
       r = 85 * RED (color (w_record w')) /\
       g = 85 * GREEN (color (w_record w')) /\
       b = 85 * BLUE (color (w_record w'))).
Proof.
  intros Hw Hstep Hch.
  pose proof (ControlStep_Ret_inv t w w' Hw Hstep) as Hw'.
  assert (Hrec : w_record w' = tick_record t w) by (rewrite Hw'; reflexivity).
  exists (tick_events t w). split; [rewrite Hw'; reflexivity|].
  assert (Hscale : forall x, 0 <= x <= 3 -> to_UInt8 (255 * x ÷ 3) = 85 * x).
  { intros x Hx. unfold to_UInt8.
    replace (255 * x) with (85 * x * 3) by lia.
    rewrite Z.quot_mul by lia. apply Z.mod_small. lia. }
  destruct (Hch (color (w_record w'))) as (H1 & H2 & H3).
  clear Hw' Hstep.
  split.
  - intros Hled. unfold tick_events, actuator_events.
    rewrite Hled, <- Hrec, !Hscale by assumption.
    rewrite !in_app_iff. right. right. right. left. left. reflexivity.
  - intros l r g b Hin.
    assert (Hact : In (EvSetSingleColor l r g b)
                     (actuator_events (m_pcMotors w) (m_pcLED w)
                        (m_pcCommA w) (w_record w'))).
    { rewrite Hrec, <- tick_events_actuation.
      apply List.filter_In. split; [exact Hin | reflexivity]. }
    unfold actuator_events in Hact. rewrite !in_app_iff in Hact.
    destruct Hact as [H | [H | H]].
    + destruct (m_pcMotors w); [|destruct H].
      destruct H as [H | []]. discriminate H.
    + destruct (m_pcLED w); [|destruct H].
      destruct H as [H | []]. inversion H.
      rewrite !Hscale by assumption. auto.
    + destruct (m_pcCommA w && (tx_state (w_record w') =? 1)); [|destruct H].
      destruct H as [H | []]. discriminate H.
Qed.

(** ** ControlStep and the behavior process *)

(** X13.  When a tick returns, the behavior process is not running: a
    process that was alive is now stopped or reaped; and the tick has left
    the mapping, the descriptor and the recorded process id alone. *)
Theorem ControlStep_returns_with_child_halted t w w' :
  m_ptRobotState w = Mapped ->
  ControlStep t w = (Ret tt, w') ->
  w_child w' <> Running /\
  (alive (w_child w) = true -> w_child w' = Stopped \/ w_child w' = Reaped) /\
  (alive (w_child w) = false -> w_child w' = w_child w) /\
  m_ptRobotState w' = Mapped /\
  m_nSharedMemFD w' = m_nSharedMemFD w /\
  m_tBehaviorPID w' = m_tBehaviorPID w.
Proof.
  intros Hw Hstep.
  destruct (alive (w_child w)) eqn:Hal.
  - destruct (tick_end t w) eqn:He.
    + rewrite ControlStep_returns in Hstep by (rewrite ?He; congruence).
      inversion Hstep; subst. unfold tick_child. rewrite Hal, He. cbn.
      repeat split; auto; congruence.
    + rewrite ControlStep_returns in Hstep by (rewrite ?He; congruence).
      inversion Hstep; subst. unfold tick_child. rewrite Hal, He. cbn.
      repeat split; auto; congruence.
    + rewrite ControlStep_hangs in Hstep by assumption. discriminate.
  - rewrite ControlStep_returns in Hstep by (rewrite ?Hal; congruence).
    inversion Hstep; subst. unfold tick_child. rewrite Hal. cbn.
    repeat split; auto; try congruence.
    destruct (w_child w); cbn in Hal; congruence.
Qed.

(** X14.  With a live behavior process that never ends its run, a tick
    never returns.  It first stores the sensor values exactly as a
    returning tick does, then sends the one resume signal and blocks in the
    one wait under WUNTRACED; the log ends there, so no actuator is driven,
    and the record is the one the sensor part left, in the behavior's
    hands. *)
Theorem ControlStep_blocks_on_endless_behavior t w :
  m_ptRobotState w = Mapped ->
  alive (w_child w) = true ->
  (forall r, snd (child_run (behavior t) r) = Spins) ->
  exists w1 w' pre,
    set_sensor_values t w = (Ret tt, w1) /\
    w_trace w1 = w_trace w ++ pre /\
    Forall (fun e => is_store e = true) pre /\
    ambientlight (w_record w1) =
      (if m_pcLight w then light_reading t else ambientlight (w_record w)) /\
    tx_state (w_record w1) =
      (if m_pcCommS w && message_sent t then 2 else tx_state (w_record w)) /\
    ControlStep t w = (Hang, w') /\
    w_trace w' =
      w_trace w1 ++
      [EvKill (m_tBehaviorPID w) SIGCONT;
       EvWaitpid (m_tBehaviorPID w) WUNTRACED] /\
    w_record w' = fst (child_run (behavior t) (w_record w1)) /\
    w_child w' = Running /\
    m_ptRobotState w' = Mapped.
Proof.
  intros Hw Hal Hspin.
  do 2 eexists. exists (sensor_events (m_pcLight w) (m_pcCommS w) t).
  split; [apply set_sensor_values_eq; exact Hw|].
  split; [reflexivity|].
  split; [apply sensor_events_store|].
  cbn [w_record w_trace with_os].
  split; [apply sensor_record_ambientlight|].
  split; [apply sensor_record_tx_state|].
  split; [apply ControlStep_hangs; [exact Hw | exact Hal | apply Hspin]|].
  cbn [w_record w_trace w_child m_ptRobotState with_os].
  unfold tick_record, handed_record. rewrite Hal, <- app_assoc.
  repeat split. exact Hw.
Qed.

Lemma ControlSteps_child_gone ts :
  forall w,
    m_ptRobotState w = Mapped ->
    alive (w_child w) = false ->
    exists w2,
      ControlSteps ts w = (Ret tt, w2) /\
      w_child w2 = w_child w /\
      outputs (w_record w2) = outputs (w_record w) /\
      m_ptRobotState w2 = Mapped /\
      (ts <> [] -> w_errno w2 = ECHILD).
Proof.
  induction ts as [|t ts IH]; intros w Hw Hal.
  - exists w. repeat split; auto. congruence.
  - assert (Hstep := ControlStep_returns t w Hw).
    rewrite Hal in Hstep. specialize (Hstep ltac:(discriminate)).
    cbn [ControlSteps]. unfold bind at 1. rewrite Hstep.
    unfold tick_child, tick_record, tick_errno. rewrite Hal.
    set (w1 := with_os ECHILD (handed_record t w) (w_child w)
                 (w_trace w ++ tick_events t w) w).
    destruct (IH w1 Hw Hal) as (w2 & Hrun & Hc & Ho & Hp & He).
    exists w2. split; [exact Hrun|]. split; [exact Hc|].
    split; [|split; [exact Hp|]].
    + rewrite Ho. cbn [w1 w_record with_os]. unfold handed_record.
      apply sensor_record_outputs.
    + intros _. destruct ts as [|t' ts'].
      * cbn in Hrun. inversion Hrun; subst. reflexivity.
      * apply He. discriminate.
Qed.

(** X15.  Once the behavior process has exited in a tick, every later run
    of ticks returns, whatever the behavior would have done.  Each of
    these ticks still stores the sensor values, sends the resume signal
    and waits, for a process that is gone: both calls fail at once, the
    last one leaving ECHILD in [errno], and nothing notices.  The child
    stays reaped, and the motor, colour and message fields keep the values
    the behavior wrote last. *)
Theorem ControlSteps_continue_after_exit t ts w :
  m_ptRobotState w = Mapped ->
  alive (w_child w) = true ->
  (forall r, snd (child_run (behavior t) r) = Exits) ->
  exists w1 w2 segs,
    ControlStep t w = (Ret tt, w1) /\
    w_child w1 = Reaped /\
    ControlSteps ts w1 = (Ret tt, w2) /\
    w_trace w2 = w_trace w1 ++ concat segs /\
    length segs = length ts /\
    Forall (tick_shape (m_tBehaviorPID w)) segs /\
    count is_resume (concat segs) = length ts /\
    count is_wait (concat segs) = length ts /\
    (ts <> [] -> w_errno w2 = ECHILD) /\
    w_child w2 = Reaped /\
    outputs (w_record w2) = outputs (w_record w1).
Proof.
  intros Hw Hal Hexit.
  assert (Hstep := ControlStep_returns t w Hw).
  unfold tick_end in Hstep. rewrite Hexit in Hstep.
  specialize (Hstep ltac:(discriminate)).
  set (w1 := with_os (tick_errno w) (tick_record t w) (tick_child t w)
               (w_trace w ++ tick_events t w) w) in Hstep.
  assert (Hc1 : w_child w1 = Reaped).
  { cbn [w1 w_child with_os]. unfold tick_child, tick_end.
    rewrite Hal, Hexit. reflexivity. }
  destruct (ControlSteps_child_gone ts w1 Hw)
    as (w2 & Hrun & Hc & Ho & _ & He).
  { rewrite Hc1. reflexivity. }
  destruct (ControlSteps_log ts w1 w2 Hw Hrun) as (segs & Htr & Hlen & Hsh).
  destruct (concat_shape_counts _ _ Hsh) as [Hr Hwt].
  exists w1, w2, segs. rewrite Hc, Hc1, Hr, Hwt, Hlen.
  repeat split; assumption.
Qed.

(** ** Destroy *)

Lemma WIFEXITED_cases s :
  (Z.land s 127 = 0 /\ WIFEXITED s = 1) \/
  (Z.land s 127 <> 0 /\ WIFEXITED s = 0).
Proof.
  unfold WIFEXITED. destruct (Z.eqb_spec (Z.land s 127) 0); auto.
Qed.

Ltac destroy_flags :=
  change (ret {| ret := 0; err := 0 |} <? 0) with false;
  change (has_flag 1 WNOHANG) with true;
  change (has_flag 1 WUNTRACED) with false;
  change (has_flag 0 WNOHANG) with false;
  change (has_flag 0 WUNTRACED) with false.

(** Whenever [Destroy] returns, it has made its six calls in order and
    the record is no longer mapped. *)
Lemma Destroy_Ret_inv d w w' :
  Destroy d w = (Ret tt, w') ->
  w_trace w' = w_trace w ++ destroy_events (WIFEXITED (nStatus d)) w /\
  m_ptRobotState w' <> Mapped.
Proof.
  destruct w as [p mo le li ca cs rng fd dfd bpid pid id e r c tr].
  unfold destroy_events, Destroy, sys_kill, sys_waitpid, sys_munmap, syscall.
  destruct (WIFEXITED_cases (nStatus d)) as [[_ ->] | [_ ->]];
    destroy_flags;
    destruct c; mred;
    destruct (child_prompt (last_run d)); mred;
    destruct (child_run (last_run d) r) as [r' []]; mred;
    destruct p; mred; intros H; inversion H; subst; cbn;
    rewrite <- ?app_assoc; (split; [reflexivity | congruence]).
Qed.

(** X16.  When the low seven bits of [nStatus] are not all zero, the wait
    of [Destroy] is a blocking one without options.  If the live behavior
    process then exits, [Destroy] returns with the child reaped, and the
    unmapping, the close and the unlink come after the wait, in this
    order. *)
Theorem Destroy_blocking_wait_reaps_then_closes d w :
  Z.land (nStatus d) 127 <> 0 ->
  m_ptRobotState w = Mapped ->
  alive (w_child w) = true ->
  snd (child_run (last_run d) (w_record w)) = Exits ->
  exists w',
    Destroy d w = (Ret tt, w') /\
    w_trace w' = w_trace w ++ destroy_events 0 w /\
    w_child w' = Reaped /\
    m_ptRobotState w' = Unmapped /\
    w_record w' = fst (child_run (last_run d) (w_record w)).
Proof.
  destruct w as [p mo le li ca cs rng fd dfd bpid pid id e r c tr].
  cbn [w_child w_record m_ptRobotState]. intros Hst -> Hc Hend.
  unfold destroy_events, Destroy, sys_kill, sys_waitpid, sys_munmap, syscall.
  destruct (WIFEXITED_cases (nStatus d)) as [[H0 _] | [_ ->]];
    [contradiction|].
  destroy_flags.
  destruct c; try discriminate Hc; mred;
    destruct (child_run (last_run d) r) as [r' en]; cbn in Hend; subst en;
    mred; eexists; (split; [reflexivity|]); cbn;
    rewrite <- ?app_assoc; repeat split.
Qed.

(** X17.  With the same blocking wait, a live behavior process that does
    not exit (it stops again, or runs on) keeps [Destroy] in the wait for
    ever: the record stays mapped and the shared memory object is never
    unlinked. *)
Theorem Destroy_blocks_while_child_survives d w :
  Z.land (nStatus d) 127 <> 0 ->
  alive (w_child w) = true ->
  snd (child_run (last_run d) (w_record w)) <> Exits ->
  exists w',
    Destroy d w = (Hang, w') /\
    w_trace w' =
      w_trace w ++
      [EvKill (m_tBehaviorPID w) SIGTERM; EvKill (m_tBehaviorPID w) SIGCONT;
       EvWaitpid (m_tBehaviorPID w) 0] /\
    m_ptRobotState w' = m_ptRobotState w.
Proof.
  destruct w as [p mo le li ca cs rng fd dfd bpid pid id e r c tr].
  cbn [w_child w_record m_ptRobotState m_tBehaviorPID w_trace].
  intros Hst Hc Hend.
  unfold Destroy, sys_kill, sys_waitpid, sys_munmap, syscall.
  destruct (WIFEXITED_cases (nStatus d)) as [[H0 _] | [_ ->]];
    [contradiction|].
  destroy_flags.
  destruct c; try discriminate Hc; mred;
    destruct (child_run (last_run d) r) as [r' []]; cbn in Hend;
    try congruence; mred; eexists; (split; [reflexivity|]); cbn;
    rewrite <- ?app_assoc; repeat split.
Qed.

Lemma Destroy_child_gone_closes d w :
  m_ptRobotState w = Mapped ->
  alive (w_child w) = false ->
  Destroy d w
  = (Ret tt,
     with_os ECHILD (w_record w) (w_child w)
       (w_trace w ++ destroy_events (WIFEXITED (nStatus d)) w)
       (set_pointer Unmapped w)).
Proof.
  destruct w as [p mo le li ca cs rng fd dfd bpid pid id e r c tr].
  cbn [w_child m_ptRobotState]. intros -> Hc.
  unfold destroy_events, Destroy, sys_kill, sys_waitpid, sys_munmap, syscall.
  change (ret {| ret := 0; err := 0 |} <? 0) with false.
  destruct c; try discriminate Hc; mred;
    rewrite <- ?app_assoc; reflexivity.
Qed.

(** X18.  After a tick in which the behavior process exited, [Destroy]
    returns whatever [nStatus] holds: its wait fails at once on the reaped
    child, and the record is unmapped and the object unlinked. *)
Theorem Destroy_after_exit_returns t d w :
  m_ptRobotState w = Mapped ->
  alive (w_child w) = true ->
  (forall r, snd (child_run (behavior t) r) = Exits) ->
  exists w1 w2,
    ControlStep t w = (Ret tt, w1) /\
    Destroy d w1 = (Ret tt, w2) /\
    w_trace w2 =
      w_trace w1 ++ destroy_events (WIFEXITED (nStatus d)) w /\
    m_ptRobotState w2 = Unmapped /\
    w_child w2 = Reaped.
Proof.
  intros Hw Hal Hexit.
  assert (Hstep := ControlStep_returns t w Hw).
  unfold tick_end in Hstep. rewrite Hexit in Hstep.
  specialize (Hstep ltac:(discriminate)).
  set (w1 := with_os (tick_errno w) (tick_record t w) (tick_child t w)
               (w_trace w ++ tick_events t w) w) in Hstep.
  assert (Hc1 : w_child w1 = Reaped).
  { cbn [w1 w_child with_os]. unfold tick_child, tick_end.
    rewrite Hal, Hexit. reflexivity. }
  exists w1. eexists. split; [exact Hstep|].
  split; [apply Destroy_child_gone_closes; [exact Hw | rewrite Hc1; reflexivity]|].
  cbn [w_trace w_child m_ptRobotState with_os set_pointer with_members].
  rewrite Hc1. repeat split.
Qed.

(** ** The whole life of a controller *)

Lemma Init_Ret_inv env w0 w1 :
  Init env w0 = (Ret tt, w1) ->
  exists path,
    behavior_attr env = inr path /\
    0 <= ret (os_open env) /\
    0 <= ret (os_shm_open env) /\
    ret (os_mmap env) <> -1 /\
    0 < ret (os_fork env) /\
    w_trace w1 = w_trace w0 ++ init_events env path w0 /\
    m_nSharedMemFD w1 = ret (os_shm_open env) /\
    m_tBehaviorPID w1 = ret (os_fork env) /\
    w_pid w1 = w_pid w0 /\ w_id w1 = w_id w0 /\
    m_pcRNG w1 = true.
Proof.
  intros H.
  destruct w0 as [p mo le li ca cs rng fd dfd bpid pid id e r c tr].
  init_unfold_in H.
  repeat (case_in H; mred_in H; try discriminate H);
    inversion H; subst; eexists; (split; [reflexivity|]); cbn;
    rewrite <- ?app_assoc; repeat split; lia.
Qed.

Lemma ControlSteps_members ts :
  forall w w2,
    m_ptRobotState w = Mapped ->
    ControlSteps ts w = (Ret tt, w2) ->
    m_ptRobotState w2 = Mapped /\
    m_nSharedMemFD w2 = m_nSharedMemFD w /\
    m_tBehaviorPID w2 = m_tBehaviorPID w /\
    w_pid w2 = w_pid w /\ w_id w2 = w_id w.
Proof.
  induction ts as [|t ts IH]; intros w w2 Hw Hrun.
  - cbn in Hrun. inversion Hrun; subst. auto.
  - cbn [ControlSteps] in Hrun. unfold bind at 1 in Hrun.
    destruct (ControlStep t w) as [o w'] eqn:Hstep.
    destruct o as [[]| | | |]; try discriminate Hrun.
    pose proof (ControlStep_Ret_inv t w w' Hw Hstep) as ->.
    pose proof (fun Hp => IH _ w2 Hp Hrun) as IH'.
    destruct (IH' Hw) as (H1 & H2 & H3 & H4 & H5).
    repeat split; assumption.
Qed.

(** X19.  A successful [Init] happens only with a configured path and
    after [open], [shm_open], [mmap] and [fork] answered well, in the
    parent; it has then made exactly the calls open, close, shm_open,
    ftruncate, mmap, memset and fork, in this order, created the random
    number generator and recorded the descriptor and the child's id. *)
Theorem Init_success_means_every_step_succeeded env w0 w1 :
  Init env w0 = (Ret tt, w1) ->
  exists path,
    behavior_attr env = inr path /\
    0 <= ret (os_open env) /\
    0 <= ret (os_shm_open env) /\
    ret (os_mmap env) <> -1 /\
    0 < ret (os_fork env) /\
    w_trace w1 = w_trace w0 ++ init_events env path w0 /\
    m_nSharedMemFD w1 = ret (os_shm_open env) /\
    m_tBehaviorPID w1 = ret (os_fork env) /\
    m_pcRNG w1 = true.
Proof.
  intros H.
  destruct (Init_Ret_inv env w0 w1 H)
    as (path & H1 & H2 & H3 & H4 & H5 & H6 & H7 & H8 & _ & _ & H9).
  exists path. repeat split; assumption.
Qed.

(** X20.  Over a whole life (a successful [Init], any returned run of
    ticks, a returned [Destroy]) the calls of [Destroy] address what
    [Init] set up: the signals and the wait go to the process id that
    [fork] returned, the close to the descriptor that [shm_open] returned,
    and the unlink to the very name that was opened. *)
Theorem Destroy_releases_what_Init_acquired env d ts w0 w1 w2 w3 :
  Init env w0 = (Ret tt, w1) ->
  ControlSteps ts w1 = (Ret tt, w2) ->
  Destroy d w2 = (Ret tt, w3) ->
  exists path segs,
    w_trace w3 =
      w_trace w0 ++
      [EvOpen path; EvClose (ret (os_open env));
       EvShmOpen (shm_name (w_pid w0) (w_id w0));
       EvFtruncate (ret (os_shm_open env));
       EvMmap (ret (os_shm_open env)); EvMemset; EvFork] ++
      concat segs ++
      [EvKill (ret (os_fork env)) SIGTERM;
       EvKill (ret (os_fork env)) SIGCONT;
       EvWaitpid (ret (os_fork env)) (WIFEXITED (nStatus d));
       EvMunmap; EvClose (ret (os_shm_open env));
       EvShmUnlink (shm_name (w_pid w0) (w_id w0))] /\
    length segs = length ts /\
    Forall (tick_shape (ret (os_fork env))) segs /\
    m_ptRobotState w3 <> Mapped.
Proof.
  intros Hinit Hrun Hdes.
  destruct (Init_Ret_inv env w0 w1 Hinit)
    as (path & _ & _ & _ & _ & _ & Htr1 & Hfd & Hpid & Hp & Hid & _).
  destruct (Init_returns_inv env w0 w1 Hinit) as (Hmap & _).
  destruct (ControlSteps_log ts w1 w2 Hmap Hrun) as (segs & Htr2 & Hlen & Hsh).
  destruct (ControlSteps_members ts w1 w2 Hmap Hrun)
    as (_ & Hfd2 & Hpid2 & Hp2 & Hid2).
  destruct (Destroy_Ret_inv d w2 w3 Hdes) as (Htr3 & Hptr).
  exists path, segs.
  split.
  - rewrite Htr3, Htr2, Htr1. unfold destroy_events, init_events.
    rewrite Hfd2, Hpid2, Hp2, Hid2, Hfd, Hpid, Hp, Hid.
    rewrite <- !app_assoc. reflexivity.
  - rewrite <- Hpid. repeat split; assumption.
Qed.

(** ** The name of the shared memory object *)

Lemma pretty_N_go_no_separator x s :
  has_separator s = false -> has_separator (pretty_N_go x s) = false.
Proof.
  revert s. induction (N.lt_wf_0 x) as [x _ IH]; intros s Hs.
  assert (x = 0 \/ 0 < x)%N as [->|Hx] by lia.
  - rewrite pretty_N_go_0. exact Hs.
  - rewrite pretty_N_go_step by exact Hx. apply IH.
    + apply N.div_lt; [exact Hx | reflexivity].
    + cbn [has_separator]. rewrite Hs.
      unfold pretty_N_char.
      repeat case_match; try reflexivity;
        match goal with
        | H : Ascii.eqb _ _ = true |- _ => vm_compute in H; discriminate H
        end.
Qed.

Lemma ToString_no_separator z : has_separator (ToString z) = false.
Proof.
  unfold ToString, pretty, pretty_Z.
  assert (HN : forall n : N, has_separator (pretty n) = false).
  { intros n. unfold pretty, pretty_N. case_decide; [reflexivity|].
    apply pretty_N_go_no_separator. reflexivity. }
  destruct z as [|q|q]; [reflexivity | apply HN |].
  cbn [String.append has_separator]. apply HN.
Qed.

Lemma split_at_separator a b i1 i2 :
  has_separator a = false ->
  has_separator b = false ->
  a +:+ "_" +:+ i1 = b +:+ "_" +:+ i2 ->
  a = b /\ i1 = i2.
Proof.
  revert b. induction a as [|c a IH]; intros [|c' b] Ha Hb Heq;
    cbn in Ha, Hb, Heq.
  - inversion Heq. auto.
  - inversion Heq; subst. cbn in Hb. discriminate.
  - inversion Heq; subst. cbn in Ha. discriminate.
  - inversion Heq; subst.
    destruct (Ascii.eqb c' _); [discriminate|].
    destruct (IH b Ha Hb) as [-> ->]; auto.
Qed.

(** X21.  The name of the shared memory object determines the process id
    and the robot id it was built from: two robots, or two simulator
    processes, never get the same name, whatever characters the robot ids
    hold. *)
Theorem shm_name_inj pid1 id1 pid2 id2 :
  shm_name pid1 id1 = shm_name pid2 id2 -> pid1 = pid2 /\ id1 = id2.
Proof.
  unfold shm_name. intros Heq. cbn [String.append] in Heq.
  inversion Heq as [Heq'].
  destruct (split_at_separator _ _ _ _ (ToString_no_separator pid1)
              (ToString_no_separator pid2) Heq') as [Hp Hi].
  split; [|exact Hi].
  unfold ToString in Hp. exact (pretty_Z_inj _ _ Hp).
Qed.

(** ** Use after Destroy *)

(** X22.  Nothing guards [m_ptRobotState]: once [Destroy] has returned,
    the record is unmapped, and a [Reset] is an invalid memory access that
    changes nothing; so is a tick on a controller with a light sensor. *)
Theorem Reset_after_Destroy_faults d t w w' :
  Destroy d w = (Ret tt, w') ->
  Reset w' = (Fault, w') /\
  (m_pcLight w' = true -> ControlStep t w' = (Fault, w')).
Proof.
  intros Hdes.
  destruct (Destroy_Ret_inv d w w' Hdes) as (_ & Hptr).
  split.
  - unfold Reset, memset_zero.
    destruct (m_ptRobotState w'); try reflexivity. congruence.
  - intros Hl. unfold ControlStep, set_sensor_values.
    unfold bind at 1. unfold bind at 1. unfold bind at 1.
    unfold get at 1. rewrite Hl. unfold when at 1. unfold store at 1.
    destruct (m_ptRobotState w'); try reflexivity. congruence.
Qed.

End Controller.










Arguments Ret {A} a.
Arguments Throw {A} e.
Arguments Fault {A}.
Arguments Hang {A}.
Arguments Replaced {A}.

(** * The claims on a sample robot

    Payloads are integers, the inbox holds 8 messages and the colour
    channels are two bits each. *)

Local Abbreviation cap := 8%nat.
Local Abbreviation red := (fun c : Z => Z.land c 3).
Local Abbreviation green := (fun c : Z => Z.land (Z.shiftr c 2) 3).
Local Abbreviation blue := (fun c : Z => Z.land (Z.shiftr c 4) 3).
Local Abbreviation fresh := (fresh_world (message_t := Z)
                           (distance_measurement_t := Z) 0 0 cap).
Local Abbreviation robot := (running_world (message_t := Z)
                           (distance_measurement_t := Z) 0 0 cap).
Local Abbreviation tick n sent c :=
  (sample_tick (message_t := Z) (distance_measurement_t := Z) 0 0 n sent c).
Local Abbreviation step t w := (ControlStep cap red green blue t w).

Lemma ControlSteps_one_resume_one_wait_per_call_witness :
  Init 0 0 cap good_env fresh = (Ret tt, robot) /\
  exists w2,
    ControlSteps cap red green blue
      [tick 3%nat true sender; tick 0%nat false idler] robot = (Ret tt, w2).
Proof.
  assert (H : Init 0 0 cap good_env fresh = (Ret tt, robot))
    by (vm_compute; reflexivity).
  split; [exact H|].
  apply (ControlSteps_one_resume_one_wait_per_call 0 0 cap red green blue
           good_env fresh robot _ H).
  repeat constructor; intros r; discriminate.
Defined.

(** C2 as stated fails: the behavior process exits during the tick and
    [ControlStep] returns normally, with the outcome it has when the
    behavior stops instead. *)
Lemma ControlStep_exit_returns_normally :
  w_child robot = Running /\
  tick_end cap (tick 0%nat false quitter) robot = Exits /\
  fst (step (tick 0%nat false quitter) robot) = Ret tt /\
  fst (step (tick 0%nat false quitter) robot)
  = fst (step (with_end Suspends (tick 0%nat false quitter)) robot).
Proof. vm_compute. repeat split. Qed.

Lemma ControlStep_exit_not_surfaced_witness :
  m_ptRobotState robot = Mapped /\
  alive (w_child robot) = true /\
  exists w_e w_s,
    step (with_end Exits (tick 2%nat false sender)) robot = (Ret tt, w_e) /\
    step (with_end Suspends (tick 2%nat false sender)) robot = (Ret tt, w_s) /\
    w_trace w_e = w_trace w_s /\
    w_record w_e = w_record w_s /\
    w_child w_e = Reaped /\ w_child w_s = Stopped.
Proof.
  split; [reflexivity|]. split; [reflexivity|].
  apply (ControlStep_exit_not_surfaced cap red green blue); reflexivity.
Defined.

Lemma ControlStep_rx_state_wraps_at_256_witness :
  length (packets (tick 256%nat false idler)) = 256%nat /\
  exists w1,
    set_sensor_values cap (tick 256%nat false idler) robot = (Ret tt, w1) /\
    step (tick 256%nat false idler) robot
    = bind (resume_and_wait (tick 256%nat false idler))
        (fun _ => set_actuator_values red green blue) w1 /\
    rx_state (w_record w1) = 0 /\
    rx_message (w_record w1) = rx_message (w_record robot) /\
    rx_distance (w_record w1) = rx_distance (w_record robot).
Proof.
  split; [reflexivity|].
  apply (ControlStep_rx_state_wraps_at_256 cap red green blue); reflexivity.
Defined.

Lemma Init_ignores_ftruncate_failure_witness :
  ret (os_ftruncate no_resize_env) < 0 /\
  (exists w', Init_on 0 0 cap true no_resize_env fresh = (Ret tt, w') /\
              m_ptRobotState w' = Mapped /\ w_child w' = Running) /\
  (exists w', Init_on 0 0 cap false no_resize_env fresh = (Fault, w') /\
              m_ptRobotState w' = Mapped /\ w_child w' = NoChild).
Proof.
  split; [reflexivity|]. split.
  - destruct (Init_ignores_ftruncate_failure 0 0 cap true no_resize_env fresh
                "behaviors/blinky")
      as (w' & Hinit & _ & Hp & Hc & _);
      [reflexivity | cbn; lia | cbn; lia | reflexivity | cbn; lia
      | reflexivity |].
    exists w'. auto.
  - destruct (Init_ignores_ftruncate_failure 0 0 cap false no_resize_env
                fresh "behaviors/blinky")
      as (w' & Hinit & _ & Hp & Hc & _);
      [reflexivity | cbn; lia | cbn; lia | reflexivity | cbn; lia
      | reflexivity |].
    exists w'. auto.
Defined.

Lemma Init_unopenable_behavior_no_fork_witness :
  ret (os_open no_file_env) < 0 /\
  exists e w', Init 0 0 cap no_file_env fresh = (Throw e, w') /\
               w_trace w' = [EvOpen "behaviors/blinky"] /\
               w_child w' = NoChild /\ m_tBehaviorPID w' = -1.
Proof.
  split; [reflexivity|].
  destruct (Init_unopenable_behavior_no_fork 0 0 cap no_file_env fresh
              "behaviors/blinky")
    as (w' & Hinit & Htr & _ & Hc & Hpid); [reflexivity | reflexivity |].
  eexists. exists w'.
  split; [exact Hinit|]. split; [exact Htr|]. split; [exact Hc | exact Hpid].
Defined.

Lemma Destroy_closes_channel_without_waiting_witness :
  alive (w_child robot) = true /\
  exists w',
    Destroy {| nStatus := 0; last_run := quitter |} robot = (Ret tt, w') /\
    w_child w' = Running /\
    m_ptRobotState w' = Unmapped.
Proof.
  split; [reflexivity|].
  destruct (Destroy_closes_channel_without_waiting
              {| nStatus := 0; last_run := quitter |} robot)
    as (w' & Hd & _ & _ & Hc & _); [reflexivity | reflexivity | reflexivity |].
  exists w'. split; [exact Hd|]. split; [exact Hc|].
  assert (Hw : w' = snd (Destroy {| nStatus := 0; last_run := quitter |} robot))
    by (rewrite Hd; reflexivity).
  rewrite Hw. reflexivity.
Defined.

Lemma Reset_zeroes_record_idempotent_witness :
  m_ptRobotState robot = Mapped /\
  exists w1 w2,
    Reset 0 0 cap robot = (Ret tt, w1) /\
    Reset 0 0 cap w1 = (Ret tt, w2) /\
    w_record w1 = zero_state 0 0 cap /\
    w_record w2 = w_record w1.
Proof.
  split; [reflexivity|].
  destruct (Reset_zeroes_record_idempotent 0 0 cap robot)
    as (w1 & w2 & H1 & H2 & H3 & H4 & _); [reflexivity|].
  exists w1, w2. auto.
Defined.

Lemma ControlStep_never_marks_ready_witness :
  exists w1,
    set_sensor_values cap (tick 0%nat true sender) robot = (Ret tt, w1) /\
    tx_state (w_record w1) = 2 /\
    tx_state (w_record (snd (step (tick 0%nat true sender) robot))) = 1.
Proof.
  destruct (ControlStep_never_marks_ready cap red green blue
              (tick 0%nat true sender) robot (Ret tt)
              (snd (step (tick 0%nat true sender) robot)))
    as (w1 & Hs & _ & Htx & _); [reflexivity | vm_compute; reflexivity |].
  exists w1. split; [exact Hs|]. split; [exact Htx | reflexivity].
Defined.

Lemma ControlStep_keeps_behavior_outputs_witness :
  exists w1,
    set_sensor_values cap (tick 3%nat true idler) robot = (Ret tt, w1) /\
    left_motor (w_record w1) = left_motor (w_record robot) /\
    right_motor (w_record w1) = right_motor (w_record robot) /\
    color (w_record w1) = color (w_record robot) /\
    tx_message (w_record w1) = tx_message (w_record robot).
Proof.
  destruct (ControlStep_keeps_behavior_outputs cap red green blue
              (tick 3%nat true idler) robot (Ret tt)
              (snd (step (tick 3%nat true idler) robot)))
    as (w1 & Hs & _ & Hl & Hr & Hc & Hm & _);
    [reflexivity | vm_compute; reflexivity |].
  exists w1. auto.
Defined.

Lemma ControlStep_quiet_tick_keeps_inbox_witness :
  packets (tick 0%nat true idler) = [] /\
  exists w1,
    set_sensor_values cap (tick 0%nat true idler)
      (snd (step (tick 3%nat false idler) robot)) = (Ret tt, w1) /\
    rx_state (w_record w1) = 3.
Proof.
  split; [reflexivity|].
  destruct (ControlStep_quiet_tick_keeps_inbox cap red green blue
              (tick 0%nat true idler)
              (snd (step (tick 3%nat false idler) robot)) (Ret tt)
              (snd (step (tick 0%nat true idler)
                      (snd (step (tick 3%nat false idler) robot)))))
    as (w1 & Hs & _ & Hrx & _);
    [reflexivity | reflexivity | vm_compute; reflexivity |].
  exists w1. split; [exact Hs|]. rewrite Hrx. reflexivity.
Defined.

(** * The further properties on the sample robot *)

Local Abbreviation steps ts w := (ControlSteps cap red green blue ts w).

Lemma Init_missing_attribute_no_syscall_witness :
  exists w', fst (Init 0 0 cap no_attr_env fresh)
             = Throw (ARGoSNested (init_error_prefix "kb0")
                        (ARGoSException "no attribute")) /\
             Init 0 0 cap no_attr_env fresh
             = (fst (Init 0 0 cap no_attr_env fresh), w') /\
             w_trace w' = [].
Proof.
  destruct (Init_missing_attribute_no_syscall 0 0 cap no_attr_env fresh
              (ARGoSException "no attribute") eq_refl)
    as (w' & Hinit & Htr & _).
  exists w'. rewrite Hinit. repeat split. exact Htr.
Defined.

Lemma Init_throws_only_wrapped_witness :
  exists e w',
    Init 0 0 cap no_file_env fresh = (Throw e, w') /\
    (exists inner, e = ARGoSNested (init_error_prefix "kb0") inner) /\
    w_child w' = NoChild.
Proof.
  pose proof (Init_open_fails 0 0 cap no_file_env fresh "behaviors/blinky"
                eq_refl eq_refl) as Hinit.
  do 2 eexists. split; [exact Hinit|].
  exact (Init_throws_only_wrapped 0 0 cap no_file_env fresh _ _ Hinit).
Defined.

Lemma Init_shm_open_failure_stops_witness :
  ret (os_shm_open no_shm_env) < 0 /\
  exists e w',
    Init 0 0 cap no_shm_env fresh = (Throw e, w') /\
    m_nSharedMemFD w' = -1 /\ m_ptRobotState w' = NULL.
Proof.
  split; [reflexivity|].
  destruct (Init_shm_open_failure_stops 0 0 cap no_shm_env fresh
              "behaviors/blinky")
    as (w' & Hinit & _ & Hfd & Hp & _);
    [reflexivity | cbn; lia | reflexivity |].
  eexists. exists w'. split; [exact Hinit|]. split; [exact Hfd | exact Hp].
Defined.

Lemma Init_mmap_failure_leaves_object_witness :
  ret (os_mmap no_map_env) = -1 /\
  exists e w',
    Init 0 0 cap no_map_env fresh = (Throw e, w') /\
    m_ptRobotState w' = MAP_FAILED /\ m_nSharedMemFD w' = 4.
Proof.
  split; [reflexivity|].
  destruct (Init_mmap_failure_leaves_object 0 0 cap no_map_env fresh
              "behaviors/blinky")
    as (w' & Hinit & _ & Hp & Hfd & _);
    [reflexivity | cbn; lia | cbn; lia | reflexivity |].
  eexists. exists w'. split; [exact Hinit|]. split; [exact Hp | exact Hfd].
Defined.

Lemma Init_fork_failure_keeps_channel_witness :
  ret (os_fork no_fork_env) < 0 /\
  exists e w',
    Init 0 0 cap no_fork_env fresh = (Throw e, w') /\
    m_ptRobotState w' = Mapped /\ m_tBehaviorPID w' = -1 /\
    w_child w' = NoChild.
Proof.
  split; [reflexivity|].
  destruct (Init_fork_failure_keeps_channel 0 0 cap no_fork_env fresh
              "behaviors/blinky")
    as (w' & Hinit & _ & Hp & _ & Hpid & Hc);
    [reflexivity | cbn; lia | cbn; lia | cbn; lia | reflexivity |].
  eexists. exists w'.
  split; [exact Hinit|]. split; [exact Hp|]. split; [exact Hpid | exact Hc].
Defined.

Lemma Init_in_child_execs_or_throws_witness :
  ret (os_fork child_env_noexec) = 0 /\
  (exists e w', Init 0 0 cap child_env_noexec fresh = (Throw e, w')) /\
  (exists w', Init 0 0 cap child_env_ok fresh = (Replaced, w')).
Proof.
  split; [reflexivity|]. split.
  - destruct (Init_in_child_execs_or_throws 0 0 cap child_env_noexec fresh
                "behaviors/blinky")
      as (w' & Hinit & _);
      [reflexivity | cbn; lia | cbn; lia | cbn; lia | reflexivity |].
    eexists. exists w'. exact Hinit.
  - destruct (Init_in_child_execs_or_throws 0 0 cap child_env_ok fresh
                "behaviors/blinky")
      as (w' & Hinit & _);
      [reflexivity | cbn; lia | cbn; lia | cbn; lia | reflexivity |].
    exists w'. exact Hinit.
Defined.

Lemma ControlStep_hands_light_reading_witness :
  exists w1,
    set_sensor_values cap (tick 3%nat true idler) robot = (Ret tt, w1) /\
    ambientlight (w_record w1) = 5.
Proof.
  destruct (ControlStep_hands_light_reading cap red green blue
              (tick 3%nat true idler) robot (Ret tt)
              (snd (step (tick 3%nat true idler) robot)))
    as (w1 & Hs & _ & Ha & _); [reflexivity | vm_compute; reflexivity |].
  exists w1. split; [exact Hs | exact Ha].
Defined.

Lemma ControlStep_copies_first_packets_witness :
  exists w1,
    set_sensor_values cap (tick 3%nat false idler) robot = (Ret tt, w1) /\
    rx_state (w_record w1) = 3 /\
    length (rx_message (w_record w1)) = cap.
Proof.
  destruct (ControlStep_copies_first_packets cap red green blue
              (tick 3%nat false idler) robot (Ret tt)
              (snd (step (tick 3%nat false idler) robot)))
    as (w1 & Hs & _ & Hn & Hm & _);
    [reflexivity | reflexivity | cbn; lia | lia | reflexivity | reflexivity
    | vm_compute; reflexivity |].
  exists w1. split; [exact Hs|]. split; [exact Hn|].
  rewrite Hm. reflexivity.
Defined.

Lemma set_sensor_values_stays_in_bounds_witness :
  exists w1,
    set_sensor_values cap (tick 300%nat false idler) robot = (Ret tt, w1) /\
    length (rx_message (w_record w1)) = cap.
Proof.
  destruct (set_sensor_values_stays_in_bounds cap (tick 300%nat false idler)
              robot)
    as (w1 & Hs & Hm & _); [reflexivity|].
  exists w1. split; [exact Hs | exact Hm].
Defined.

Lemma ControlStep_actuates_from_final_record_witness :
  exists evs,
    w_trace (snd (step (tick 0%nat false sender) robot))
    = w_trace robot ++ evs /\
    length (List.filter is_actuation evs) = 3%nat.
Proof.
  destruct (ControlStep_actuates_from_final_record cap red green blue
              (tick 0%nat false sender) robot
              (snd (step (tick 0%nat false sender) robot)))
    as (evs & Htr & Hf); [reflexivity | vm_compute; reflexivity |].
  exists evs. split; [exact Htr|]. rewrite Hf. reflexivity.
Defined.

Lemma ControlStep_led_components_exact_witness :
  w_trace (snd (ControlStep cap (fun _ => 1) (fun _ => 2) (fun _ => 3)
                  (tick 0%nat false sender) robot))
  = w_trace robot ++
    [EvStore F_ambientlight;
     EvKill 4243 SIGCONT; EvWaitpid 4243 WUNTRACED;
     EvSetLinearVelocity (0 # 255) (0 # 255); EvSetSingleColor 0 85 170 255;
     EvSetMessage 0] /\
  exists evs,
    w_trace (snd (ControlStep cap (fun _ => 1) (fun _ => 2) (fun _ => 3)
                    (tick 0%nat false sender) robot))
    = w_trace robot ++ evs /\
    In (EvSetSingleColor 0 85 170 255) evs.
Proof.
  split; [vm_compute; reflexivity|].
  destruct (ControlStep_led_components_exact cap
              (fun _ => 1) (fun _ => 2) (fun _ => 3)
              (tick 0%nat false sender) robot
              (snd (ControlStep cap (fun _ => 1) (fun _ => 2) (fun _ => 3)
                      (tick 0%nat false sender) robot)))
    as (evs & Htr & Hin & _);
    [reflexivity | vm_compute; reflexivity | intros c; lia |].
  exists evs. split; [exact Htr|]. apply Hin. reflexivity.
Defined.

Lemma ControlStep_returns_with_child_halted_witness :
  w_child robot = Running /\
  w_child (snd (step (tick 1%nat false idler) robot)) <> Running.
Proof.
  split; [reflexivity|].
  apply (ControlStep_returns_with_child_halted cap red green blue
           (tick 1%nat false idler) robot);
    [reflexivity | vm_compute; reflexivity].
Defined.

Lemma ControlStep_blocks_on_endless_behavior_witness :
  exists w1 w',
    set_sensor_values cap (tick 1%nat true spinner) robot = (Ret tt, w1) /\
    ambientlight (w_record w1) = 5 /\
    tx_state (w_record w1) = 2 /\
    step (tick 1%nat true spinner) robot = (Hang, w') /\
    w_trace w' =
      w_trace w1 ++ [EvKill 4243 SIGCONT; EvWaitpid 4243 WUNTRACED].
Proof.
  destruct (ControlStep_blocks_on_endless_behavior cap red green blue
              (tick 1%nat true spinner) robot)
    as (w1 & w' & pre & Hs & _ & _ & Ha & Htx & Hh & Htr & _);
    [reflexivity | reflexivity | intros r; reflexivity |].
  exists w1, w'. repeat split; assumption.
Defined.

Lemma ControlSteps_continue_after_exit_witness :
  exists w1 w2 segs,
    step (tick 0%nat false quitter) robot = (Ret tt, w1) /\
    w_child w1 = Reaped /\
    steps [tick 2%nat true spinner; tick 0%nat false sender] w1
    = (Ret tt, w2) /\
    w_trace w2 = w_trace w1 ++ concat segs /\
    length segs = 2%nat /\
    count is_resume (concat segs) = 2%nat /\
    count is_wait (concat segs) = 2%nat /\
    w_errno w2 = ECHILD /\
    w_child w2 = Reaped /\
    outputs (w_record w2) = outputs (w_record w1).
Proof.
  destruct (ControlSteps_continue_after_exit cap red green blue
              (tick 0%nat false quitter)
              [tick 2%nat true spinner; tick 0%nat false sender] robot)
    as (w1 & w2 & segs & H1 & H2 & H3 & H4 & H5 & _ & H6 & H7 & H8 & H9 & H10);
    [reflexivity | reflexivity | intros r; reflexivity |].
  exists w1, w2, segs.
  repeat split; try assumption. apply H8. discriminate.
Defined.

Lemma Destroy_blocking_wait_reaps_then_closes_witness :
  exists w',
    Destroy {| nStatus := 1; last_run := quitter |} robot = (Ret tt, w') /\
    w_child w' = Reaped /\ m_ptRobotState w' = Unmapped.
Proof.
  destruct (Destroy_blocking_wait_reaps_then_closes
              {| nStatus := 1; last_run := quitter |} robot)
    as (w' & Hd & _ & Hc & Hp & _);
    [discriminate | reflexivity | reflexivity | reflexivity |].
  exists w'. split; [exact Hd|]. split; [exact Hc | exact Hp].
Defined.

Lemma Destroy_blocks_while_child_survives_witness :
  exists w',
    Destroy {| nStatus := 1; last_run := idler |} robot = (Hang, w') /\
    m_ptRobotState w' = Mapped.
Proof.
  destruct (Destroy_blocks_while_child_survives
              {| nStatus := 1; last_run := idler |} robot)
    as (w' & Hd & _ & Hp);
    [discriminate | reflexivity | discriminate |].
  exists w'. split; [exact Hd | exact Hp].
Defined.

Lemma Destroy_after_exit_returns_witness :
  exists w1 w2,
    step (tick 0%nat false quitter) robot = (Ret tt, w1) /\
    Destroy {| nStatus := 1; last_run := spinner |} w1 = (Ret tt, w2) /\
    m_ptRobotState w2 = Unmapped.
Proof.
  destruct (Destroy_after_exit_returns cap red green blue
              (tick 0%nat false quitter)
              {| nStatus := 1; last_run := spinner |} robot)
    as (w1 & w2 & Hs & Hd & _ & Hp & _);
    [reflexivity | reflexivity | intros r; reflexivity |].
  exists w1, w2. split; [exact Hs|]. split; [exact Hd | exact Hp].
Defined.

Lemma Init_success_means_every_step_succeeded_witness :
  exists path,
    behavior_attr good_env = inr path /\
    m_nSharedMemFD robot = 4 /\ m_tBehaviorPID robot = 4243.
Proof.
  destruct (Init_success_means_every_step_succeeded 0 0 cap good_env fresh
              robot)
    as (path & Ha & _ & _ & _ & _ & _ & Hfd & Hpid & _);
    [vm_compute; reflexivity|].
  exists path. split; [exact Ha|]. split; [exact Hfd | exact Hpid].
Defined.

Lemma Destroy_releases_what_Init_acquired_witness :
  m_ptRobotState
    (snd (Destroy {| nStatus := 1; last_run := quitter |}
            (snd (steps [tick 2%nat true sender] robot)))) <> Mapped.
Proof.
  destruct (Destroy_releases_what_Init_acquired 0 0 cap red green blue
              good_env {| nStatus := 1; last_run := quitter |}
              [tick 2%nat true sender] fresh robot
              (snd (steps [tick 2%nat true sender] robot))
              (snd (Destroy {| nStatus := 1; last_run := quitter |}
                      (snd (steps [tick 2%nat true sender] robot)))))
    as (path & segs & _ & _ & _ & Hp);
    [vm_compute; reflexivity | vm_compute; reflexivity
    | vm_compute; reflexivity |].
  exact Hp.
Defined.

Lemma shm_name_inj_witness : (4242 : Z) = 4242 /\ "kb0" = "kb0".
Proof. apply (shm_name_inj 4242 "kb0" 4242 "kb0"). reflexivity. Defined.

Lemma Reset_after_Destroy_faults_witness :
  fst (Reset 0 0 cap
         (snd (Destroy {| nStatus := 1; last_run := quitter |} robot)))
  = Fault.
Proof.
  destruct (Reset_after_Destroy_faults 0 0 cap red green blue
              {| nStatus := 1; last_run := quitter |}
              (tick 0%nat false idler) robot
              (snd (Destroy {| nStatus := 1; last_run := quitter |} robot)))
    as (Hr & _); [vm_compute; reflexivity|].
  rewrite Hr. reflexivity.
Defined.
